(** * Door monitor cog ([cogs/monitor.py]): shallow embedding and properties

    The [Monitor] cog polls a door endpoint, edits one status message per
    linked guild when the door state changes, keeps a bounded history of the
    transitions and renders that history page by page.

    Python integers are [Z], Python strings are [string], the history is a
    list of [(timestamp, label)] pairs as in the source, and the guild-to-
    message dictionary is an insertion-ordered association list.  Everything
    the cog does to the outside world (printing, editing or sending a
    message, replying to a command) and every history mutation is recorded
    in a trace of events; an exception that leaves a coroutine is returned
    next to the state it leaves behind. *)

From Stdlib Require Import String Ascii DecimalString ZArith Bool List Lia Sorted.
Import ListNotations.
Open Scope string_scope.
Open Scope Z_scope.
Open Scope list_scope.

Set Implicit Arguments.

(** ** Python values and exceptions *)

(** The scalars that can reach [door_open]: what [response.json()] can put
    under ["open"] (null, a boolean, an integer, a string), the literal
    [False], and a history label (a [str]). *)
Inductive pyval : Type :=
| PyNone
| PyBool (b : bool)
| PyInt (z : Z)
| PyStr (s : string).

(** Truth value of [if v:]. *)
Definition truthy (v : pyval) : bool :=
  match v with
  | PyNone => false
  | PyBool b => b
  | PyInt z => negb (z =? 0)
  | PyStr s => negb (String.eqb s "")
  end.

Inductive exn : Type :=
| KeyError
| IndexError
| ZeroDivisionError
| HTTPException (message_id : Z).

Inductive result (A : Type) : Type :=
| Ok (a : A)
| Raise (e : exn).
Arguments Ok {A} a.
Arguments Raise {A} e.

(** [str(z)] for a Python int. *)
Definition str_of_int (z : Z) : string := NilZero.string_of_int (Z.to_int z).

(** ** Python lists: negative indices and slices *)

Module PyList.
Section Ops.
Variable A : Type.

Definition len (l : list A) : Z := Z.of_nat (length l).

(** How [l[i:j]] resolves one bound: a negative bound counts from the
    end, and the outcome is clipped to [0 .. len l]. *)
Definition clip (l : list A) (i : Z) : Z :=
  if i <? 0 then Z.max 0 (i + len l) else Z.min i (len l).

(** [l[start:stop]] *)
Definition slice (l : list A) (start stop : Z) : list A :=
  let lo := clip l start in
  let hi := clip l stop in
  firstn (Z.to_nat (hi - lo)) (skipn (Z.to_nat lo) l).

(** [l[1:]] *)
Definition tail_from_1 (l : list A) : list A := slice l 1 (len l).

(** [l[-1]] *)
Definition last_item (l : list A) : result A :=
  match rev l with
  | [] => Raise IndexError
  | x :: _ => Ok x
  end.
End Ops.
End PyList.

(** ** Python dicts with integer keys, in insertion order *)

Module PyDict.
Section Ops.
Variable V : Type.

Definition t := list (Z * V).

Fixpoint get (k : Z) (d : t) : option V :=
  match d with
  | [] => None
  | (k', v) :: d' => if k =? k' then Some v else get k d'
  end.

(** [d[k] = v]: an existing key keeps its position. *)
Fixpoint set (k : Z) (v : V) (d : t) : t :=
  match d with
  | [] => [(k, v)]
  | (k', v') :: d' => if k =? k' then (k, v) :: d' else (k', v') :: set k v d'
  end.

Definition keys (d : t) : list Z := map fst d.
End Ops.
End PyDict.

(** ** Discord objects *)

Inductive Colour : Type := NoColour | Green | Red | Blurple.

Record Embed : Type := mkEmbed {
  title : string;
  description : string;
  color : Colour;
  thumbnail : option string;
  footer : option string
}.

Record File : Type := mkFile { fp : string; filename : string }.

Record TextChannel : Type := mkChannel {
  channel_id : Z;
  mention : string
}.

Record Message : Type := mkMessage {
  message_id : Z;
  channel : TextChannel;
  embed_of : Embed
}.

(** The [channel] argument of [link_channel]: the converter hands over a
    resolved [discord.TextChannel], or the raw text when nothing matched. *)
Inductive ChannelArg : Type :=
| Resolved (c : TextChannel)
| Unresolved (name : string).

(** Outcome of lines 90-91: the request and the JSON walk either raise or
    yield the value found under [door][0][open]. *)
Inductive FetchOutcome : Type :=
| FetchRaised (why : string)
| FetchValue (v : pyval).

(** What one run of a coroutine sees of the outside world.  The clock is
    read once per run: the embeds made in that run and the record appended
    in it carry the same second. *)
Record World : Type := mkWorld {
  now : Z;                          (* int(datetime.now().timestamp()) *)
  fetch : FetchOutcome;             (* the door endpoint *)
  edit_raises : Message -> bool;    (* messages whose edit() raises *)
  fresh_id : Z                      (* id given to a message sent now *)
}.

Inductive event : Type :=
| EvPrint (line : string)
| EvEdit (guild : Z) (m : Message)
| EvSend (c : TextChannel) (e : Embed) (f : File) (m : Message)
| EvReply (text : string)
| EvAppend (r : Z * string)
| EvEvict (r : Z * string).

Definition trace := list event.

(** ** The cog *)

Record Monitor : Type := mkMonitor {
  messages : PyDict.t Message;
  refresh_rate : Z;
  num_per_page : Z;
  max_history_len : Z;
  history : list (Z * string)
}.

(** [Monitor(bot, refresh_rate, num_per_page, max_history_len)] *)
Definition init (refresh num_pp max_len : Z) : Monitor :=
  mkMonitor [] refresh num_pp max_len [].

(** [Monitor(bot)] *)
Definition init_default : Monitor := init 1 10 1000.

Definition set_messages (self : Monitor) (d : PyDict.t Message) : Monitor :=
  mkMonitor d (refresh_rate self) (num_per_page self) (max_history_len self)
            (history self).

Definition set_history (self : Monitor) (h : list (Z * string)) : Monitor :=
  mkMonitor (messages self) (refresh_rate self) (num_per_page self)
            (max_history_len self) h.

(** [self.emojis[state]] *)
Definition emojis (state : string) : result string :=
  if String.eqb state "Open" then Ok ":unlock:"
  else if String.eqb state "Closed" then Ok ":lock:"
  else Raise KeyError.

(** [create_status_embed] *)
Definition create_status_embed (w : World) (door_open : pyval) : Embed * File :=
  let file := mkFile "logo.png" "logo.png" in
  let timestamp := ("<t:" ++ str_of_int (now w) ++ ">")%string in
  if truthy door_open
  then (mkEmbed "CS Club Door Status" ("MQH 227 is now open - " ++ timestamp)%string
                Green (Some "attachment://logo.png") None, file)
  else (mkEmbed "CS Club Door Status" ("MQH 227 is now closed - " ++ timestamp)%string
                Red (Some "attachment://logo.png") None, file).

(** [m[door_open]] for [m = {False: "Closed", True: "Open"}]; the integers
    0 and 1 hash and compare equal to [False] and [True]. *)
Definition m_lookup (door_open : pyval) : result string :=
  match door_open with
  | PyBool false => Ok "Closed"
  | PyBool true => Ok "Open"
  | PyInt 0 => Ok "Closed"
  | PyInt 1 => Ok "Open"
  | _ => Raise KeyError
  end.

(** [message.edit(embed=embed)] *)
Definition edit (w : World) (msg : Message) (e : Embed) : result Message :=
  if edit_raises w msg then Raise (HTTPException (message_id msg))
  else Ok (mkMessage (message_id msg) (channel msg) e).

(** Lines 89-94: the guarded fetch. *)
Definition get_door_status (w : World) : pyval * trace :=
  match fetch w with
  | FetchRaised why =>
      (PyBool false, [EvPrint ("Couldn't get door status because " ++ why)%string])
  | FetchValue v => (v, [])
  end.

(** Lines 101-103: the loop over the guilds of [self.messages]. *)
Fixpoint edit_loop (w : World) (door_open : pyval) (guilds : list Z)
         (msgs : PyDict.t Message) : PyDict.t Message * trace * option exn :=
  match guilds with
  | [] => (msgs, [], None)
  | guild :: rest =>
      let embed := fst (create_status_embed w door_open) in
      match PyDict.get guild msgs with
      | None => (msgs, [], Some KeyError)
      | Some msg =>
          match edit w msg embed with
          | Raise e => (msgs, [], Some e)
          | Ok msg' =>
              let '(msgs', tr, r) :=
                edit_loop w door_open rest (PyDict.set guild msg' msgs) in
              (msgs', EvEdit guild msg' :: tr, r)
          end
      end
  end.

(** Lines 105-107: append, then drop the first record when over the cap. *)
Definition append_and_trim (self : Monitor) (r : Z * string) : Monitor * trace :=
  let h := history self ++ [r] in
  if PyList.len h >? max_history_len self
  then (set_history self (PyList.tail_from_1 h),
        EvAppend r :: map EvEvict (firstn 1 h))
  else (set_history self h, [EvAppend r]).

(** Lines 101-107, reached when the debounce test did not return. *)
Definition announce (w : World) (self : Monitor) (door_open : pyval)
  : Monitor * trace * option exn :=
  let '(msgs, tr, r) :=
    edit_loop w door_open (PyDict.keys (messages self)) (messages self) in
  let self1 := set_messages self msgs in
  match r with
  | Some e => (self1, tr, Some e)
  | None =>
      match m_lookup door_open with
      | Raise e => (self1, tr, Some e)
      | Ok label =>
          let '(self2, tr2) := append_and_trim self1 (now w, label) in
          (self2, tr ++ tr2, None)
      end
  end.

(** Lines 96-107, with [door_open] already determined.  The test of line 97
    evaluates [len(self.history) > 0] first, then [m[door_open]], then
    [self.history[-1][1]]. *)
Definition on_status (w : World) (self : Monitor) (door_open : pyval)
  : Monitor * trace * option exn :=
  if PyList.len (history self) >? 0 then
    match m_lookup door_open with
    | Raise e => (self, [], Some e)
    | Ok label =>
        match PyList.last_item (history self) with
        | Raise e => (self, [], Some e)
        | Ok last =>
            if String.eqb label (snd last)
            then (self, [], None)               (* the status is the same *)
            else announce w self door_open
        end
    end
  else announce w self door_open.

(** [send_announcement] *)
Definition send_announcement (w : World) (self : Monitor)
  : Monitor * trace * option exn :=
  let '(door_open, tr0) := get_door_status w in
  let '(self', tr, r) := on_status w self door_open in
  (self', tr0 ++ tr, r).

(** [link_channel], for a command issued in guild [guild_id]. *)
Definition link_channel (w : World) (self : Monitor) (guild_id : Z)
           (channel : ChannelArg) : Monitor * trace * option exn :=
  match channel with
  | Unresolved name =>
      (self,
       [EvReply ("Sorry, couldn't find the channel " ++ name ++
                 ". Please try again, and make sure there aren't any typos.")%string],
       None)
  | Resolved c =>
      let val :=
        if PyList.len (history self) >? 0
        then match PyList.last_item (history self) with
             | Ok last => Ok (PyStr (snd last))
             | Raise e => Raise e
             end
        else Ok (PyBool false) in
      match val with
      | Raise e => (self, [], Some e)
      | Ok val =>
          let '(embed, file) := create_status_embed w val in
          let sent := mkMessage (fresh_id w) c embed in
          (set_messages self (PyDict.set guild_id sent (messages self)),
           [EvSend c embed file sent;
            EvReply ("Now using " ++ mention c ++
                     " as the place to send announcements")%string],
           None)
      end
  end.

(** [test_link] *)
Definition test_link (self : Monitor) (guild_id : Z) : trace :=
  match PyDict.get guild_id (messages self) with
  | Some msg =>
      [EvReply ("Correctly linked to send door monitor announcements to " ++
                mention (channel msg))%string]
  | None =>
      [EvReply "Not linked to any channel. Use `-linkMonitor` to link the door monitor to a channel."]
  end.

(** [get_total_pages]; [//] and [%] round towards minus infinity, as
    [Z.div] and [Z.modulo] do, and raise on a zero divisor. *)
Definition get_total_pages (self : Monitor) : result Z :=
  let n := PyList.len (history self) in
  if num_per_page self =? 0 then Raise ZeroDivisionError
  else Ok (n / num_per_page self +
           (if negb (n mod num_per_page self =? 0) then 1 else 0)).

Definition newline : string := String (ascii_of_nat 10) EmptyString.

(** One line of the listing (line 191). *)
Definition history_line (emoji state : string) (timestamp : Z) : string :=
  (emoji ++ " " ++ state ++ " - <t:" ++ str_of_int timestamp ++ ">" ++ newline)%string.

(** The bounds of line 187-188. *)
Definition page_start (self : Monitor) (page : Z) : Z :=
  - (page + 1) * num_per_page self.

Definition page_end (self : Monitor) (page : Z) : Z :=
  if negb (page =? 0) then - page * num_per_page self
  else PyList.len (history self).

(** The records line 190 iterates over: [reversed(self.history[start:end])]. *)
Definition page_records (self : Monitor) (page : Z) : list (Z * string) :=
  rev (PyList.slice (history self) (page_start self page) (page_end self page)).

(** The loop of lines 190-191, appending to [embed.description]. *)
Fixpoint add_lines (rs : list (Z * string)) (desc : string) : result string :=
  match rs with
  | [] => Ok desc
  | (timestamp, state) :: rest =>
      match emojis state with
      | Raise e => Raise e
      | Ok emoji => add_lines rest (desc ++ history_line emoji state timestamp)%string
      end
  end.

(** [get_page] *)
Definition get_page (self : Monitor) (page : Z) : result Embed :=
  match add_lines (page_records self page) "" with
  | Raise e => Raise e
  | Ok desc =>
      match get_total_pages self with
      | Raise e => Raise e
      | Ok total =>
          Ok (mkEmbed "Door History" desc Blurple None
                (Some ("Showing page " ++ str_of_int (page + 1) ++ "/" ++
                       str_of_int total)%string))
      end
  end.

(** ** Sessions

    The cog's state changes in two ways: the polling task runs
    [send_announcement], and a guild owner issues [linkMonitor]. *)

Inductive command : Type :=
| Poll (w : World)
| LinkMonitor (w : World) (guild_id : Z) (c : ChannelArg).

Definition exec (c : command) (self : Monitor) : Monitor * trace * option exn :=
  match c with
  | Poll w => send_announcement w self
  | LinkMonitor w guild_id ch => link_channel w self guild_id ch
  end.

(** The commands of [cs] one after the other, whatever each ends with. *)
Fixpoint run (cs : list command) (self : Monitor) : Monitor * trace :=
  match cs with
  | [] => (self, [])
  | c :: cs' =>
      let '(self1, tr1, _) := exec c self in
      let '(self2, tr2) := run cs' self1 in
      (self2, tr1 ++ tr2)
  end.

(** ** Reading a trace *)

(** The records appended to the history, in order. *)
Fixpoint appended (tr : trace) : list (Z * string) :=
  match tr with
  | [] => []
  | EvAppend r :: tr' => r :: appended tr'
  | _ :: tr' => appended tr'
  end.

(** The records dropped from the history, in order. *)
Fixpoint evicted (tr : trace) : list (Z * string) :=
  match tr with
  | [] => []
  | EvEvict r :: tr' => r :: evicted tr'
  | _ :: tr' => evicted tr'
  end.

(** The message edits, in order. *)
Fixpoint edits (tr : trace) : list (Z * Message) :=
  match tr with
  | [] => []
  | EvEdit g m :: tr' => (g, m) :: edits tr'
  | _ :: tr' => edits tr'
  end.

(** The value [door_open] holds after line 94, and what was printed. *)
Definition observed (w : World) : pyval := fst (get_door_status w).
Definition fetch_log (w : World) : trace := snd (get_door_status w).

(** The last [n] elements of a list. *)
Definition lastn (A : Type) (n : nat) (l : list A) : list A :=
  skipn (length l - n) l.

(** Every record differs in state from the one before it. *)
Fixpoint alternating (h : list (Z * string)) : Prop :=
  match h with
  | [] => True
  | r :: t =>
      match t with
      | [] => True
      | r' :: _ => snd r <> snd r' /\ alternating t
      end
  end.

(** Every record carries one of the two labels of [m]. *)
Definition labelled (h : list (Z * string)) : Prop :=
  Forall (fun r => snd r = "Open" \/ snd r = "Closed") h.

(** ** Vocabulary of the properties *)

(** The history after [self.history.append(r)] and the trimming test. *)
Definition trimmed (cap : Z) (h : list (Z * string)) : list (Z * string) :=
  if PyList.len h >? cap then tl h else h.

(** Line 97 lets an observation labelled [label] through. *)
Definition transition (h : list (Z * string)) (label : string) : Prop :=
  h = [] \/ exists last, PyList.last_item h = Ok last /\ snd last <> label.

(** How a command leaves the history: untouched, or one record longer and
    then trimmed, the latter only on a transition. *)
Inductive history_step (cap : Z) (h : list (Z * string)) (tr : trace)
  : list (Z * string) -> Prop :=
| hs_same : appended tr = [] -> evicted tr = [] -> history_step cap h tr h
| hs_append r h' :
    transition h (snd r) ->
    snd r = "Open" \/ snd r = "Closed" ->
    h' = trimmed cap (h ++ [r]) ->
    appended tr = [r] ->
    evicted tr ++ h' = h ++ [r] ->
    history_step cap h tr h'.

(** The value [link_channel] hands to [create_status_embed]: the label of
    the last record, a [str], or [False]. *)
Definition link_val (self : Monitor) : pyval :=
  match PyList.last_item (history self) with
  | Ok last => PyStr (snd last)
  | Raise _ => PyBool false
  end.

(** The message [edit] returns on success. *)
Definition edited (e : Embed) (kv : Z * Message) : Z * Message :=
  (fst kv, mkMessage (message_id (snd kv)) (channel (snd kv)) e).

Definition edit_event (kv : Z * Message) : event := EvEdit (fst kv) (snd kv).

(** The text of a listing of [rs], top line first. *)
Definition emoji_of (state : string) : string :=
  if String.eqb state "Open" then ":unlock:" else ":lock:".

Fixpoint listing (rs : list (Z * string)) : string :=
  match rs with
  | [] => ""
  | r :: rest => (history_line (emoji_of (snd r)) (snd r) (fst r) ++ listing rest)%string
  end.

(** The pages [0 .. total - 1]. *)
Definition page_numbers (total : Z) : list Z :=
  map Z.of_nat (seq 0 (Z.to_nat total)).

(** ** The history command *)

(** The arguments [get_history] builds its [PageView] from, next to the
    cog's own [get_page] and [get_total_pages]: the user allowed to turn
    the pages and the timeout in seconds. *)
Record PageView : Type := mkPageView {
  view_user : Z;
  view_timeout : Z
}.

(** [get_history], for a command issued by [author]: what [ctx.send] is
    given, or the exception [get_page(0)] raises. *)
Definition get_history (self : Monitor) (author : Z) : result (Embed * PageView) :=
  match get_page self 0 with
  | Raise e => Raise e
  | Ok embed => Ok (embed, mkPageView author 20)
  end.

(** ** Vocabulary of the further properties *)

(** What identifies a message apart from its content. *)
Definition handle (m : Message) : Z * TextChannel := (message_id m, channel m).

(** The channel of the last [linkMonitor] of [cs] that resolved a channel
    in guild [g], or [before] when there is none. *)
Fixpoint last_link (g : Z) (cs : list command) (before : option TextChannel)
  : option TextChannel :=
  match cs with
  | [] => before
  | Poll _ :: cs' => last_link g cs' before
  | LinkMonitor _ g' (Resolved c) :: cs' =>
      last_link g cs' (if g' =? g then Some c else before)
  | LinkMonitor _ _ (Unresolved _) :: cs' => last_link g cs' before
  end.

(** The reply of [test_link] for a guild linked to [c], or to nothing. *)
Definition link_report (c : option TextChannel) : trace :=
  match c with
  | Some c =>
      [EvReply ("Correctly linked to send door monitor announcements to " ++
                mention c)%string]
  | None =>
      [EvReply "Not linked to any channel. Use `-linkMonitor` to link the door monitor to a channel."]
  end.

(** The clock readings of the polls of a session, in order. *)
Fixpoint poll_times (cs : list command) : list Z :=
  match cs with
  | [] => []
  | Poll w :: cs' => now w :: poll_times cs'
  | LinkMonitor _ _ _ :: cs' => poll_times cs'
  end.

(** The two status views. *)
Definition open_embed (t : Z) : Embed :=
  mkEmbed "CS Club Door Status" ("MQH 227 is now open - <t:" ++ str_of_int t ++ ">")%string
          Green (Some "attachment://logo.png") None.

Definition closed_embed (t : Z) : Embed :=
  mkEmbed "CS Club Door Status" ("MQH 227 is now closed - <t:" ++ str_of_int t ++ ">")%string
          Red (Some "attachment://logo.png") None.

(** ** Sample worlds *)

Definition sees (t : Z) (b : bool) : World :=
  mkWorld t (FetchValue (PyBool b)) (fun _ => false) 0.

Definition fails (t : Z) : World :=
  mkWorld t (FetchRaised "timeout") (fun _ => false) 0.

Definition demo : Monitor := init 1 2 3.

Definition demo_session : list command :=
  [Poll (sees 1 false); Poll (sees 2 true); Poll (sees 3 true);
   Poll (sees 4 false); Poll (sees 5 true)].

Definition lobby : TextChannel := mkChannel 3 "<#3>".

(** Three guilds linked before the first poll; their messages get the ids
    101, 102 and 103. *)
Definition three_guilds : Monitor :=
  fst (run [LinkMonitor (mkWorld 0 (FetchValue (PyBool false)) (fun _ => false) 101)
                        1 (Resolved (mkChannel 11 "<#11>"));
            LinkMonitor (mkWorld 0 (FetchValue (PyBool false)) (fun _ => false) 102)
                        2 (Resolved (mkChannel 12 "<#12>"));
            LinkMonitor (mkWorld 0 (FetchValue (PyBool false)) (fun _ => false) 103)
                        3 (Resolved (mkChannel 13 "<#13>"))]
           init_default).

(** The door is open and message 102 can no longer be edited. *)
Definition opens_102_gone : World :=
  mkWorld 10 (FetchValue (PyBool true)) (fun m => message_id m =? 102) 0.

(** ** The scenario of the cap 3 and the page size 2 *)

Example demo_history :
  history (fst (run demo_session demo)) = [(2, "Open"); (4, "Closed"); (5, "Open")].
Proof. reflexivity. Qed.

Example demo_pages :
  let self := fst (run demo_session demo) in
  page_records self 0 = [(5, "Open"); (4, "Closed")] /\
  page_records self 1 = [(2, "Open")] /\
  get_total_pages self = Ok 2.
Proof. repeat split. Qed.

(** A failed fetch after a recorded closing: a line is printed, nothing is
    recorded and nothing is edited. *)
Example failed_fetch_after_closing :
  let self := fst (run [LinkMonitor (sees 0 false) 77 (Resolved lobby);
                        Poll (sees 5 false)] init_default) in
  send_announcement (fails 6) self =
    (self, [EvPrint "Couldn't get door status because timeout"], None).
Proof. reflexivity. Qed.

Ltac pairs :=
  repeat match goal with
         | H : (_, _) = (_, _) |- _ => inversion H; subst; clear H
         end.

(** ** Lists, slices and dictionaries *)

Section ListFacts.
Variable A : Type.
Implicit Types l : list A.

Lemma last_item_snoc l x : PyList.last_item (l ++ [x]) = Ok x.
Proof. unfold PyList.last_item. rewrite rev_app_distr. reflexivity. Qed.

Lemma last_item_nil : PyList.last_item (@nil A) = Raise IndexError.
Proof. reflexivity. Qed.

Lemma last_item_cons_snoc l x y :
  PyList.last_item (y :: l ++ [x]) = Ok x.
Proof. exact (last_item_snoc (y :: l) x). Qed.

Lemma len_nonneg l : 0 <= PyList.len l.
Proof. unfold PyList.len. lia. Qed.

Lemma len_app l1 l2 : PyList.len (l1 ++ l2) = PyList.len l1 + PyList.len l2.
Proof. unfold PyList.len. rewrite length_app. lia. Qed.

Lemma len_zero_nil l : (PyList.len l >? 0) = false -> l = [].
Proof.
  unfold PyList.len. destruct l as [|x l]; [reflexivity|].
  cbn [length]. intros H. rewrite Z.gtb_ltb, Z.ltb_ge in H. lia.
Qed.

Lemma len_pos_snoc l :
  (PyList.len l >? 0) = true -> exists l' x, l = l' ++ [x].
Proof.
  intros H. destruct (rev l) as [|x r] eqn:E.
  - apply (f_equal (@rev A)) in E. rewrite rev_involutive in E. subst l.
    discriminate H.
  - exists (rev r), x. apply (f_equal (@rev A)) in E.
    rewrite rev_involutive in E. exact E.
Qed.

Lemma tail_from_1_cons x l : PyList.tail_from_1 (x :: l) = l.
Proof.
  unfold PyList.tail_from_1, PyList.slice, PyList.clip, PyList.len.
  cbn [length]. replace (1 <? 0) with false by reflexivity.
  destruct (Z.of_nat (S (length l)) <? 0) eqn:E;
    [apply Z.ltb_lt in E; lia|].
  rewrite Z.min_id.
  replace (Z.min 1 (Z.of_nat (S (length l)))) with 1 by lia.
  replace (Z.to_nat (Z.of_nat (S (length l)) - 1)) with (length l) by lia.
  cbn [Z.to_nat Pos.to_nat Pos.iter_op Nat.add skipn].
  apply firstn_all.
Qed.

Lemma lastn_length n l : length (lastn n l) = Nat.min n (length l).
Proof. unfold lastn. rewrite length_skipn. lia. Qed.

Lemma lastn_all n l : (length l <= n)%nat -> lastn n l = l.
Proof.
  intros H. unfold lastn.
  replace (length l - n)%nat with 0%nat by lia. reflexivity.
Qed.

Lemma lastn_app_lastn n l1 l2 : lastn n (lastn n l1 ++ l2) = lastn n (l1 ++ l2).
Proof.
  unfold lastn. rewrite !length_app, length_skipn.
  destruct (Nat.le_gt_cases (length l1) n) as [H|H].
  - replace (length l1 - n)%nat with 0%nat by lia. cbn [skipn].
    f_equal. lia.
  - rewrite (skipn_app (length l1 + length l2 - n)).
    rewrite (skipn_app (_ - _ + length l2 - n)).
    rewrite length_skipn, skipn_skipn.
    f_equal; f_equal; lia.
Qed.

Lemma lastn_snoc_small n l x :
  (length l < n)%nat -> lastn n (l ++ [x]) = l ++ [x].
Proof. intros H. apply lastn_all. rewrite length_app. cbn. lia. Qed.

Lemma lastn_snoc_full n l x :
  (n <= length l)%nat -> lastn n (l ++ [x]) = tl (lastn n l ++ [x]).
Proof.
  intros H. unfold lastn. rewrite length_app. cbn [length].
  replace (length l + 1 - n)%nat with (1 + (length l - n))%nat by lia.
  rewrite <- skipn_skipn, (skipn_app (length l - n) l [x]).
  replace (length l - n - length l)%nat with 0%nat by lia.
  cbn [skipn]. destruct (skipn (length l - n) l ++ [x]); reflexivity.
Qed.
End ListFacts.

Lemma last_item_len (A : Type) (l : list A) x :
  PyList.last_item l = Ok x -> (PyList.len l >? 0) = true.
Proof.
  destruct l as [|y l]; [discriminate|]. intros _.
  unfold PyList.len. cbn [length]. rewrite Z.gtb_ltb. apply Z.ltb_lt. lia.
Qed.

(** ** What one command does to the history *)

Lemma append_and_trim_spec self r self' tr :
  append_and_trim self r = (self', tr) ->
  messages self' = messages self /\
  max_history_len self' = max_history_len self /\
  num_per_page self' = num_per_page self /\
  history self' = trimmed (max_history_len self) (history self ++ [r]) /\
  appended tr = [r] /\ edits tr = [] /\
  evicted tr ++ history self' = history self ++ [r].
Proof.
  unfold append_and_trim, trimmed. intros H.
  destruct (PyList.len (history self ++ [r]) >? max_history_len self) eqn:E;
    pairs; cbn [messages max_history_len num_per_page history set_history].
  - destruct (history self ++ [r]) as [|x t] eqn:Eh.
    + destruct (history self); discriminate Eh.
    + rewrite tail_from_1_cons. cbn. repeat split; reflexivity.
  - repeat split; reflexivity.
Qed.

Lemma edit_loop_quiet w v guilds msgs msgs' tr r :
  edit_loop w v guilds msgs = (msgs', tr, r) ->
  appended tr = [] /\ evicted tr = [].
Proof.
  revert msgs msgs' tr r. induction guilds as [|g rest IH]; intros msgs msgs' tr r H.
  - cbn in H. pairs. split; reflexivity.
  - cbn [edit_loop] in H.
    destruct (PyDict.get g msgs) as [msg|]; [|pairs; split; reflexivity].
    destruct (edit w msg _) as [msg'|e]; [|pairs; split; reflexivity].
    destruct (edit_loop w v rest _) as [[m1 t1] r1] eqn:E.
    pairs. cbn. exact (IH _ _ _ _ E).
Qed.

Lemma announce_spec w self v self' tr r :
  announce w self v = (self', tr, r) ->
  max_history_len self' = max_history_len self /\
  num_per_page self' = num_per_page self /\
  ((r <> None /\ history self' = history self /\
    appended tr = [] /\ evicted tr = []) \/
   (exists label, r = None /\ m_lookup v = Ok label /\
      history self' =
        trimmed (max_history_len self) (history self ++ [(now w, label)]) /\
      appended tr = [(now w, label)] /\
      evicted tr ++ history self' = history self ++ [(now w, label)])).
Proof.
  unfold announce. intros H.
  destruct (edit_loop w v _ _) as [[msgs t1] r1] eqn:E.
  destruct (edit_loop_quiet _ _ _ _ E) as [Ha Hv].
  destruct r1 as [e|].
  - pairs. cbn. repeat split; trivial. left. repeat split; trivial. discriminate.
  - destruct (m_lookup v) as [label|e] eqn:Em.
    + destruct (append_and_trim _ _) as [self2 t2] eqn:E2.
      apply append_and_trim_spec in E2. cbn in E2.
      destruct E2 as (_ & Hm & Hn & Hh & Happ & _ & Hev). pairs.
      repeat split; trivial. right. exists label. repeat split; trivial.
      * clear -Ha Happ. induction t1 as [|ev t1 IH]; [exact Happ|].
        destruct ev; cbn in *; try (apply IH; assumption). discriminate Ha.
      * rewrite <- Hev. f_equal.
        clear -Hv. induction t1 as [|ev t1 IH]; [reflexivity|].
        destruct ev; cbn in *; try (apply IH; assumption). discriminate Hv.
    + pairs. cbn. repeat split; trivial. left. repeat split; trivial. discriminate.
Qed.

Lemma appended_app t1 t2 : appended (t1 ++ t2) = appended t1 ++ appended t2.
Proof.
  induction t1 as [|ev t1 IH]; [reflexivity|].
  destruct ev; cbn; rewrite ?IH; reflexivity.
Qed.

Lemma evicted_app t1 t2 : evicted (t1 ++ t2) = evicted t1 ++ evicted t2.
Proof.
  induction t1 as [|ev t1 IH]; [reflexivity|].
  destruct ev; cbn; rewrite ?IH; reflexivity.
Qed.

Lemma edits_app t1 t2 : edits (t1 ++ t2) = edits t1 ++ edits t2.
Proof.
  induction t1 as [|ev t1 IH]; [reflexivity|].
  destruct ev; cbn; rewrite ?IH; reflexivity.
Qed.

Lemma fetch_log_quiet w :
  appended (fetch_log w) = [] /\ evicted (fetch_log w) = [] /\
  edits (fetch_log w) = [].
Proof.
  unfold fetch_log, get_door_status. destruct (fetch w); repeat split.
Qed.

Lemma m_lookup_label v label :
  m_lookup v = Ok label -> label = "Open" \/ label = "Closed".
Proof.
  destruct v as [|[|]|[|[| |]|]|]; cbn; intros H; inversion H; auto.
Qed.

Lemma send_announcement_step w self self' tr r :
  send_announcement w self = (self', tr, r) ->
  max_history_len self' = max_history_len self /\
  num_per_page self' = num_per_page self /\
  history_step (max_history_len self) (history self) tr (history self').
Proof.
  unfold send_announcement. intros H.
  destruct (get_door_status w) as [v t0] eqn:Ef.
  destruct (on_status w self v) as [[s1 t1] r1] eqn:Eo. pairs.
  destruct (fetch_log_quiet w) as (Fa & Fe & _).
  unfold fetch_log in Fa, Fe. rewrite Ef in Fa, Fe. cbn [snd] in Fa, Fe.
  assert (Hann : forall s t r0, transition (history self) match m_lookup v with
                                                       | Ok l => l | Raise _ => "" end ->
                                announce w self v = (s, t, r0) ->
            max_history_len s = max_history_len self /\
            num_per_page s = num_per_page self /\
            history_step (max_history_len self) (history self) (t0 ++ t) (history s)).
  { intros s t r0 Ht Ha. apply announce_spec in Ha.
    destruct Ha as (Hm & Hn & [(_ & Hh & Happ & Hev)|(label & _ & Hl & Hh & Happ & Hev)]).
    - repeat split; trivial. rewrite Hh. apply hs_same.
      + rewrite appended_app, Fa, Happ. reflexivity.
      + rewrite evicted_app, Fe, Hev. reflexivity.
    - repeat split; trivial. rewrite Hl in Ht.
      apply hs_append with (r := (now w, label)); trivial.
      + exact (m_lookup_label _ Hl).
      + rewrite appended_app, Fa, Happ. reflexivity.
      + rewrite evicted_app, Fe. exact Hev. }
  unfold on_status in Eo.
  destruct (PyList.len (history self) >? 0) eqn:El.
  - destruct (m_lookup v) as [label|e] eqn:Em.
    + destruct (PyList.last_item (history self)) as [last|e] eqn:Ela.
      * destruct (String.eqb label (snd last)) eqn:Eq.
        -- pairs. repeat split; trivial. apply hs_same.
           ++ rewrite appended_app, Fa. reflexivity.
           ++ rewrite evicted_app, Fe. reflexivity.
        -- apply (Hann _ _ _) in Eo; trivial.
           right. exists last. split; trivial.
           apply String.eqb_neq in Eq. congruence.
      * pairs. repeat split; trivial. apply hs_same.
        -- rewrite appended_app, Fa. reflexivity.
        -- rewrite evicted_app, Fe. reflexivity.
    + pairs. repeat split; trivial. apply hs_same.
      * rewrite appended_app, Fa. reflexivity.
      * rewrite evicted_app, Fe. reflexivity.
  - apply (Hann _ _ _) in Eo; trivial. left. exact (len_zero_nil _ El).
Qed.

Lemma link_channel_step w self g c self' tr r :
  link_channel w self g c = (self', tr, r) ->
  max_history_len self' = max_history_len self /\
  num_per_page self' = num_per_page self /\
  history self' = history self /\ appended tr = [] /\ evicted tr = [].
Proof.
  unfold link_channel. intros H. destruct c as [c|name].
  - destruct (PyList.len (history self) >? 0).
    + destruct (PyList.last_item (history self)) as [last|e].
      * destruct (create_status_embed w _) as [em f]. pairs. repeat split.
      * pairs. repeat split.
    + destruct (create_status_embed w _) as [em f]. pairs. repeat split.
  - pairs. repeat split.
Qed.

Lemma exec_step c self self' tr r :
  exec c self = (self', tr, r) ->
  max_history_len self' = max_history_len self /\
  num_per_page self' = num_per_page self /\
  history_step (max_history_len self) (history self) tr (history self').
Proof.
  destruct c as [w|w g ch]; cbn [exec]; intros H.
  - exact (send_announcement_step _ _ H).
  - apply link_channel_step in H. destruct H as (Hm & Hn & Hh & Ha & He).
    repeat split; trivial. rewrite Hh. apply hs_same; assumption.
Qed.

(** ** The history is a bounded first-in first-out log *)

Lemma trimmed_lastn cap h r :
  0 <= cap -> PyList.len h <= cap ->
  trimmed cap (h ++ [r]) = lastn (Z.to_nat cap) (h ++ [r]).
Proof.
  unfold trimmed, PyList.len. intros Hc Hl. rewrite length_app. cbn [length].
  destruct (Z.of_nat (length h + 1) >? cap) eqn:E.
  - rewrite Z.gtb_ltb in E. apply Z.ltb_lt in E.
    rewrite lastn_snoc_full by lia. rewrite lastn_all by lia. reflexivity.
  - rewrite Z.gtb_ltb in E. apply Z.ltb_ge in E.
    symmetry. apply lastn_snoc_small. lia.
Qed.

Lemma history_step_lastn cap h tr h' :
  0 <= cap -> PyList.len h <= cap -> history_step cap h tr h' ->
  h' = lastn (Z.to_nat cap) (h ++ appended tr) /\
  PyList.len h' <= cap /\
  evicted tr ++ h' = h ++ appended tr.
Proof.
  intros Hc Hl Hs.
  assert (Hlen : forall l : list (Z * string),
             PyList.len (lastn (Z.to_nat cap) l) <= cap).
  { intros l. unfold PyList.len. rewrite lastn_length. lia. }
  destruct Hs as [Ha He | r h' _ _ Hh Ha He].
  - rewrite Ha, He, app_nil_r. cbn [app]. repeat split; trivial.
    symmetry. apply lastn_all. unfold PyList.len in Hl. lia.
  - rewrite Ha. subst h'. rewrite trimmed_lastn in * by assumption.
    repeat split; trivial.
Qed.

Lemma run_bounded_fifo cs : forall self,
  0 <= max_history_len self ->
  PyList.len (history self) <= max_history_len self ->
  max_history_len (fst (run cs self)) = max_history_len self /\
  history (fst (run cs self)) =
    lastn (Z.to_nat (max_history_len self))
          (history self ++ appended (snd (run cs self))) /\
  evicted (snd (run cs self)) ++ history (fst (run cs self)) =
    history self ++ appended (snd (run cs self)).
Proof.
  induction cs as [|c cs IH]; intros self Hc Hl.
  - cbn. rewrite app_nil_r. repeat split; trivial.
    symmetry. apply lastn_all. unfold PyList.len in Hl. lia.
  - cbn [run]. destruct (exec c self) as [[s1 t1] r1] eqn:E.
    apply exec_step in E. destruct E as (Hm & _ & Hs).
    apply history_step_lastn in Hs; trivial. destruct Hs as (Hh & Hl1 & He1).
    specialize (IH s1). rewrite Hm in IH. specialize (IH Hc Hl1).
    destruct (run cs s1) as [s2 t2]. cbn [fst snd] in *.
    destruct IH as (Hm2 & Hh2 & He2).
    rewrite appended_app, evicted_app. repeat split; trivial.
    + rewrite Hh2, Hh, lastn_app_lastn, app_assoc. reflexivity.
    + rewrite <- app_assoc, He2, !app_assoc, He1. reflexivity.
Qed.

(** C1.  Whatever is polled and whoever links in between, starting from the
    empty history of a cog whose cap is not negative: the history never
    holds more than [max_history_len] records; the records dropped so far,
    in the order they were dropped, followed by the records kept, are the
    records appended so far in the order they were appended; so the history
    is the last [max_history_len] appended records, oldest first. *)
Theorem history_bounded_fifo cs self :
  0 <= max_history_len self ->
  history self = [] ->
  PyList.len (history (fst (run cs self))) <= max_history_len self /\
  evicted (snd (run cs self)) ++ history (fst (run cs self)) =
    appended (snd (run cs self)) /\
  history (fst (run cs self)) =
    lastn (Z.to_nat (max_history_len self)) (appended (snd (run cs self))).
Proof.
  intros Hc Hh.
  destruct (run_bounded_fifo cs self Hc) as (_ & H1 & H2).
  { rewrite Hh. exact Hc. }
  rewrite Hh in H1, H2. cbn [app] in H1, H2. repeat split; trivial.
  rewrite H1. unfold PyList.len. rewrite lastn_length. lia.
Qed.

Lemma history_bounded_fifo_witness :
  0 <= max_history_len demo /\ history demo = [] /\
  PyList.len (history (fst (run demo_session demo))) <= max_history_len demo /\
  evicted (snd (run demo_session demo)) ++ history (fst (run demo_session demo)) =
    appended (snd (run demo_session demo)) /\
  history (fst (run demo_session demo)) =
    lastn (Z.to_nat (max_history_len demo)) (appended (snd (run demo_session demo))).
Proof.
  split; [cbn; lia|]. split; [reflexivity|].
  apply (@history_bounded_fifo demo_session demo); [cbn; lia | reflexivity].
Defined.

(** ** Neighbouring records differ *)

Lemma last_item_cons_cons (A : Type) (x y : A) l :
  PyList.last_item (x :: y :: l) = PyList.last_item (y :: l).
Proof.
  unfold PyList.last_item. cbn [rev].
  destruct (rev l) as [|z r]; reflexivity.
Qed.

Lemma alternating_snoc h r :
  alternating h -> transition h (snd r) -> alternating (h ++ [r]).
Proof.
  induction h as [|x t IH]; intros Ha Ht; [exact I|].
  destruct t as [|y t'].
  - destruct Ht as [Ht|(last & Hl & Hne)]; [discriminate Ht|].
    cbn in Hl. inversion Hl; subst last. cbn. split; [exact Hne | exact I].
  - destruct Ha as [Hxy Ha]. cbn [app alternating]. split; [exact Hxy|].
    apply IH; [exact Ha|].
    destruct Ht as [Ht|(last & Hl & Hne)]; [discriminate Ht|].
    right. exists last. rewrite last_item_cons_cons in Hl. split; assumption.
Qed.

Lemma alternating_tl h : alternating h -> alternating (tl h).
Proof.
  destruct h as [|x [|y t]]; cbn; trivial. intros [_ H]. exact H.
Qed.

Lemma history_step_alternating cap h tr h' :
  alternating h -> history_step cap h tr h' -> alternating h'.
Proof.
  intros Ha [ | r h1 Ht _ Hh _ _]; [exact Ha|].
  subst h1. unfold trimmed.
  destruct (PyList.len (h ++ [r]) >? cap);
    [apply alternating_tl|]; apply alternating_snoc; assumption.
Qed.

Lemma run_alternating cs : forall self,
  alternating (history self) -> alternating (history (fst (run cs self))).
Proof.
  induction cs as [|c cs IH]; intros self Ha; [exact Ha|].
  cbn [run]. destruct (exec c self) as [[s1 t1] r1] eqn:E.
  apply exec_step in E. destruct E as (_ & _ & Hs).
  specialize (IH s1 (history_step_alternating Ha Hs)).
  destruct (run cs s1) as [s2 t2]. exact IH.
Qed.

Lemma alternating_nth h : forall i a b,
  alternating h ->
  nth_error h i = Some a -> nth_error h (S i) = Some b -> snd a <> snd b.
Proof.
  induction h as [|x t IH]; intros i a b Ha Hi Hj; [destruct i; discriminate|].
  destruct t as [|y t']; [destruct i; discriminate Hj|].
  destruct Ha as [Hxy Ha]. destruct i as [|i].
  - cbn in Hi, Hj. inversion Hi; inversion Hj; subst. exact Hxy.
  - exact (IH i a b Ha Hi Hj).
Qed.

(** C10.  After any session that starts from an empty history, every record
    of the history differs in state from the record right before it. *)
Theorem neighbours_differ cs self i a b :
  history self = [] ->
  nth_error (history (fst (run cs self))) i = Some a ->
  nth_error (history (fst (run cs self))) (S i) = Some b ->
  snd a <> snd b.
Proof.
  intros Hh. apply alternating_nth. apply run_alternating.
  rewrite Hh. exact I.
Qed.

Lemma neighbours_differ_witness :
  history demo = [] /\
  nth_error (history (fst (run demo_session demo))) 1 = Some (4, "Closed") /\
  nth_error (history (fst (run demo_session demo))) 2 = Some (5, "Open") /\
  snd (4, "Closed") <> snd (5, "Open").
Proof.
  split; [reflexivity|]. split; [reflexivity|]. split; [reflexivity|].
  apply (@neighbours_differ demo_session demo 1 (4, "Closed") (5, "Open"));
    reflexivity.
Defined.

(** ** A failed fetch reads as a closed door *)




(** A value under ["open"] that is neither a boolean nor 0 or 1 is no
    fetch failure: nothing is raised inside the [try], and the lookup in [m]
    raises outside of it. *)
Lemma non_boolean_open_raises t er fid self last :
  PyList.last_item (history self) = Ok last ->
  send_announcement (mkWorld t (FetchValue PyNone) er fid) self =
    (self, [], Some KeyError).
Proof.
  intros Hl. unfold send_announcement, get_door_status, on_status. cbn [fetch].
  rewrite (last_item_len _ Hl). reflexivity.
Qed.


(** ** Linking *)

Lemma get_set_same (V : Type) k (v : V) d : PyDict.get k (PyDict.set k v d) = Some v.
Proof.
  induction d as [|[k' v'] d IH]; cbn.
  - rewrite Z.eqb_refl. reflexivity.
  - destruct (k =? k') eqn:E; cbn; rewrite ?E, ?Z.eqb_refl; trivial.
Qed.

Lemma get_set_other (V : Type) k k' (v : V) d :
  k <> k' -> PyDict.get k (PyDict.set k' v d) = PyDict.get k d.
Proof.
  intros Hne. induction d as [|[k2 v2] d IH]; cbn.
  - destruct (k =? k') eqn:E; [apply Z.eqb_eq in E; contradiction|reflexivity].
  - destruct (k' =? k2) eqn:E2; cbn.
    + apply Z.eqb_eq in E2. subst k2.
      destruct (k =? k') eqn:E; [apply Z.eqb_eq in E; contradiction|reflexivity].
    + destruct (k =? k2); trivial.
Qed.

(** C8.  Linking with a name that did not resolve to a channel replies
    with a message that quotes the name and changes nothing in the cog,
    the guild-to-message dictionary included. *)
Theorem link_unresolved w self guild_id name :
  link_channel w self guild_id (Unresolved name) =
    (self,
     [EvReply ("Sorry, couldn't find the channel " ++ name ++
               ". Please try again, and make sure there aren't any typos.")%string],
     None) /\
  messages (fst (fst (link_channel w self guild_id (Unresolved name)))) =
    messages self.
Proof. split; reflexivity. Qed.

Lemma link_channel_resolved w self guild_id c :
  let embed := fst (create_status_embed w (link_val self)) in
  let sent := mkMessage (fresh_id w) c embed in
  link_channel w self guild_id (Resolved c) =
    (set_messages self (PyDict.set guild_id sent (messages self)),
     [EvSend c embed (mkFile "logo.png" "logo.png") sent;
      EvReply ("Now using " ++ mention c ++
               " as the place to send announcements")%string],
     None).
Proof.
  cbn zeta. unfold link_channel, link_val.
  destruct (PyList.len (history self) >? 0) eqn:El.
  - destruct (len_pos_snoc _ El) as (h & x & Hh). rewrite Hh, last_item_snoc.
    unfold create_status_embed. destruct (truthy _); reflexivity.
  - rewrite (len_zero_nil _ El). reflexivity.
Qed.

(** Right after a link, [test_link] in the same guild names the channel. *)
Lemma link_then_test_link w self guild_id c :
  test_link (fst (fst (link_channel w self guild_id (Resolved c)))) guild_id =
    [EvReply ("Correctly linked to send door monitor announcements to " ++
              mention c)%string].
Proof.
  pose proof (link_channel_resolved w self guild_id c) as H. cbn zeta in H.
  rewrite H. unfold test_link. cbn [fst messages set_messages].
  rewrite get_set_same. reflexivity.
Qed.

(** A label is never the empty string, so it always counts as true. *)
Lemma link_val_closed_truthy self last :
  PyList.last_item (history self) = Ok last -> snd last = "Closed" ->
  truthy (link_val self) = true.
Proof. unfold link_val. intros -> ->. reflexivity. Qed.

(** C4, at a history whose last record is a closing: the message stored
    for the guild announces an open door, where a view of the last record
    would announce a closed one. *)
Theorem link_after_closing_renders_open :
  let self := fst (run [Poll (sees 5 false)] init_default) in
  let w := sees 9 false in
  let self' := fst (fst (link_channel w self 77 (Resolved (mkChannel 3 "<#3>")))) in
  history self = [(5, "Closed")] /\
  option_map embed_of (PyDict.get 77 (messages self')) =
    Some (mkEmbed "CS Club Door Status" "MQH 227 is now open - <t:9>" Green
            (Some "attachment://logo.png") None) /\
  fst (create_status_embed w (PyBool false)) =
    mkEmbed "CS Club Door Status" "MQH 227 is now closed - <t:9>" Red
      (Some "attachment://logo.png") None.
Proof. repeat split. Qed.

(** ** Debounce *)

Lemma debounce_noop w self last :
  PyList.last_item (history self) = Ok last ->
  m_lookup (observed w) = Ok (snd last) ->
  send_announcement w self = (self, fetch_log w, None).
Proof.
  unfold send_announcement, observed, fetch_log. intros Hl Hm.
  destruct (get_door_status w) as [v t0]. cbn [fst snd] in *.
  unfold on_status. rewrite (last_item_len _ Hl), Hm, Hl, String.eqb_refl.
  rewrite app_nil_r. reflexivity.
Qed.

Lemma last_item_trimmed cap h (r : Z * string) :
  1 <= cap -> PyList.last_item (trimmed cap (h ++ [r])) = Ok r.
Proof.
  intros Hc. unfold trimmed.
  destruct (PyList.len (h ++ [r]) >? cap) eqn:E; [|apply last_item_snoc].
  rewrite Z.gtb_ltb in E. apply Z.ltb_lt in E. rewrite len_app in E.
  destruct h as [|y h']; [cbn in E; lia|]. cbn [app tl]. apply last_item_snoc.
Qed.

(** A poll that ends without an exception either was debounced or
    recorded a transition. *)
Lemma send_announcement_completed w self self1 tr1 :
  send_announcement w self = (self1, tr1, None) ->
  exists label, m_lookup (observed w) = Ok label /\
    ((self1 = self /\ tr1 = fetch_log w /\
      exists last, PyList.last_item (history self) = Ok last /\ snd last = label) \/
     (transition (history self) label /\
      max_history_len self1 = max_history_len self /\
      history self1 =
        trimmed (max_history_len self) (history self ++ [(now w, label)]) /\
      appended tr1 = [(now w, label)])).
Proof.
  unfold send_announcement, observed, fetch_log. intros H.
  destruct (fetch_log_quiet w) as (Fa & _). unfold fetch_log in Fa.
  destruct (get_door_status w) as [v t0]. cbn [fst snd] in *.
  destruct (on_status w self v) as [[s t] r] eqn:Eo. pairs.
  assert (Hann : forall s0 t1, transition (history self) match m_lookup v with
                                                        | Ok l => l | Raise _ => "" end ->
             announce w self v = (s0, t1, None) ->
             exists label, m_lookup v = Ok label /\
               (transition (history self) label /\
                max_history_len s0 = max_history_len self /\
                history s0 =
                  trimmed (max_history_len self) (history self ++ [(now w, label)]) /\
                appended (t0 ++ t1) = [(now w, label)])).
  { intros s0 t1 Ht Ha. apply announce_spec in Ha.
    destruct Ha as (Hm & _ & [(Hr & _)|(label & _ & Hl & Hh & Happ & _)]);
      [contradiction Hr; reflexivity|].
    exists label. rewrite Hl in Ht. repeat split; trivial.
    rewrite appended_app, Fa. exact Happ. }
  unfold on_status in Eo.
  destruct (PyList.len (history self) >? 0) eqn:El.
  - destruct (m_lookup v) as [label|e] eqn:Em; [|discriminate Eo].
    destruct (PyList.last_item (history self)) as [last|e] eqn:Ela;
      [|discriminate Eo].
    destruct (String.eqb label (snd last)) eqn:Eq.
    + pairs. exists label. split; trivial. left.
      rewrite app_nil_r. repeat split. exists last. split; trivial.
      apply String.eqb_eq in Eq. congruence.
    + assert (Ht : transition (history self) label).
      { right. exists last. split; trivial.
        apply String.eqb_neq in Eq. congruence. }
      destruct (Hann _ _ Ht Eo) as (l2 & Hl2 & H2).
      exists l2. split; trivial. right. exact H2.
  - assert (Ht : transition (history self)
                   match m_lookup v with Ok l => l | Raise _ => "" end).
    { left. exact (len_zero_nil _ El). }
    destruct (Hann _ _ Ht Eo) as (l2 & Hl2 & H2).
    exists l2. split; trivial. right. exact H2.
Qed.

Lemma second_poll_noop w1 w2 self self1 tr1 :
  1 <= max_history_len self ->
  send_announcement w1 self = (self1, tr1, None) ->
  m_lookup (observed w2) = m_lookup (observed w1) ->
  send_announcement w2 self1 = (self1, fetch_log w2, None) /\
  (length (appended tr1) <= 1)%nat /\
  exists label, m_lookup (observed w1) = Ok label /\
    (transition (history self) label -> appended tr1 = [(now w1, label)]).
Proof.
  intros Hc H1 Hsame.
  destruct (send_announcement_completed _ _ H1)
    as (label & Hl & [(-> & -> & last & Hla & Hs) | (Ht & Hm & Hh & Ha)]).
  - split; [|split].
    + apply debounce_noop with (last := last); [exact Hla|]. congruence.
    + destruct (fetch_log_quiet w1) as (-> & _). cbn. lia.
    + exists label. split; trivial. intros [Hn|(l2 & Hl2 & Hne)].
      * rewrite Hn in Hla. discriminate Hla.
      * congruence.
  - split; [|split].
    + apply debounce_noop with (last := (now w1, label)).
      * rewrite Hh. apply last_item_trimmed. exact Hc.
      * cbn [snd]. congruence.
    + rewrite Ha. cbn. lia.
    + exists label. split; trivial.
Qed.

(** C2, as the code has it.  A poll that observes the state of the last
    record of a non-empty history changes nothing: no record is appended
    and no message is edited (the only event is the line printed when the
    fetch failed).  Hence, when the cap is at least 1 and a poll ends
    without an exception, the poll after it, if it observes the same state,
    is such a no-op: the two polls append at most one record, exactly one
    when the first poll saw a transition, and only the first one edits. *)
Theorem debounce_law w1 w2 self :
  (forall last,
      PyList.last_item (history self) = Ok last ->
      m_lookup (observed w1) = Ok (snd last) ->
      send_announcement w1 self = (self, fetch_log w1, None) /\
      appended (fetch_log w1) = [] /\ edits (fetch_log w1) = []) /\
  (forall self1 tr1,
      1 <= max_history_len self ->
      send_announcement w1 self = (self1, tr1, None) ->
      m_lookup (observed w2) = m_lookup (observed w1) ->
      send_announcement w2 self1 = (self1, fetch_log w2, None) /\
      appended (tr1 ++ fetch_log w2) = appended tr1 /\
      edits (tr1 ++ fetch_log w2) = edits tr1 /\
      (length (appended tr1) <= 1)%nat /\
      exists label, m_lookup (observed w1) = Ok label /\
        (transition (history self) label -> appended tr1 = [(now w1, label)])).
Proof.
  split.
  - intros last Hl Hm. split; [exact (debounce_noop _ _ Hl Hm)|].
    destruct (fetch_log_quiet w1) as (Ha & _ & He). split; assumption.
  - intros self1 tr1 Hc H1 Hs.
    destruct (@second_poll_noop w1 w2 self self1 tr1 Hc H1 Hs) as (H2 & Hlen & Hex).
    destruct (fetch_log_quiet w2) as (Ha & _ & He).
    rewrite appended_app, edits_app, Ha, He, !app_nil_r.
    repeat split; trivial.
Qed.

Lemma debounce_law_witness :
  (PyList.last_item (history (set_history demo [(1, "Open")])) = Ok (1, "Open") /\
   m_lookup (observed (sees 2 true)) = Ok "Open" /\
   send_announcement (sees 2 true) (set_history demo [(1, "Open")]) =
     (set_history demo [(1, "Open")], fetch_log (sees 2 true), None)) /\
  (1 <= max_history_len demo /\
   send_announcement (sees 3 true)
     (fst (fst (send_announcement (sees 2 true) demo))) =
     (fst (fst (send_announcement (sees 2 true) demo)), fetch_log (sees 3 true), None)).
Proof.
  split.
  - split; [reflexivity|]. split; [reflexivity|].
    apply (proj1 (debounce_law (sees 2 true) (sees 3 true)
                    (set_history demo [(1, "Open")])) (1, "Open"));
      reflexivity.
  - split; [cbn; lia|].
    apply (proj2 (debounce_law (sees 2 true) (sees 3 true) demo)
             (fst (fst (send_announcement (sees 2 true) demo)))
             (snd (fst (send_announcement (sees 2 true) demo))));
      [cbn; lia | reflexivity | reflexivity].
Defined.

(** Two polls in a row that observe the same state need not leave exactly
    one record and one announcement.  With the default cap, once a closing
    is recorded, two polls that see the door closed record nothing.  With a
    cap of 0 the history is empty before every poll, so two polls that
    see the door open both append a record and both edit the linked
    message. *)
Lemma debounce_pair_counterexample :
  (let self := fst (run [Poll (sees 5 false)] init_default) in
   observed (sees 6 false) = observed (sees 7 false) /\
   history self = [(5, "Closed")] /\
   appended (snd (run [Poll (sees 6 false); Poll (sees 7 false)] self)) = []) /\
  (let self := fst (run [LinkMonitor (sees 0 false) 77 (Resolved lobby)]
                        (init 1 10 0)) in
   observed (sees 6 true) = observed (sees 7 true) /\
   appended (snd (run [Poll (sees 6 true); Poll (sees 7 true)] self)) =
     [(6, "Open"); (7, "Open")] /\
   map fst (edits (snd (run [Poll (sees 6 true); Poll (sees 7 true)] self))) =
     [77; 77] /\
   history (fst (run [Poll (sees 6 true); Poll (sees 7 true)] self)) = []).
Proof. repeat split. Qed.

(** ** A failing edit stops the announcement *)

Lemma get_app_fresh (V : Type) k (d1 d2 : PyDict.t V) :
  ~ In k (PyDict.keys d1) -> PyDict.get k (d1 ++ d2) = PyDict.get k d2.
Proof.
  induction d1 as [|[k' v'] d1 IH]; intros Hn; [reflexivity|].
  cbn in *. destruct (k =? k') eqn:E.
  - apply Z.eqb_eq in E. subst. contradiction Hn. left. reflexivity.
  - apply IH. intros Hi. apply Hn. right. exact Hi.
Qed.

Lemma set_app_fresh (V : Type) k (v : V) (d1 d2 : PyDict.t V) :
  ~ In k (PyDict.keys d1) ->
  PyDict.set k v (d1 ++ d2) = d1 ++ PyDict.set k v d2.
Proof.
  induction d1 as [|[k' v'] d1 IH]; intros Hn; [reflexivity|].
  cbn in *. destruct (k =? k') eqn:E.
  - apply Z.eqb_eq in E. subst. contradiction Hn. left. reflexivity.
  - f_equal. apply IH. intros Hi. apply Hn. right. exact Hi.
Qed.

Lemma edit_loop_stops w v g msg d2 : forall d1 done,
  NoDup (PyDict.keys (done ++ d1 ++ (g, msg) :: d2)) ->
  Forall (fun kv => edit_raises w (snd kv) = false) d1 ->
  edit_raises w msg = true ->
  let e := fst (create_status_embed w v) in
  edit_loop w v (PyDict.keys (d1 ++ (g, msg) :: d2))
            (done ++ d1 ++ (g, msg) :: d2) =
    (done ++ map (edited e) d1 ++ (g, msg) :: d2,
     map edit_event (map (edited e) d1),
     Some (HTTPException (message_id msg))).
Proof.
  cbn zeta. induction d1 as [|[k m] d1 IH]; intros done Hnd Hok Hbad.
  - cbn [app map PyDict.keys fst edit_loop].
    assert (Hfresh : ~ In g (PyDict.keys done)).
    { unfold PyDict.keys in *. rewrite map_app in Hnd. cbn in Hnd.
      apply NoDup_remove_2 in Hnd. intros Hi. apply Hnd.
      apply in_or_app. left. exact Hi. }
    rewrite get_app_fresh by exact Hfresh. cbn [PyDict.get].
    rewrite Z.eqb_refl. unfold edit. rewrite Hbad. reflexivity.
  - assert (Hfresh : ~ In k (PyDict.keys done)).
    { unfold PyDict.keys in *. rewrite map_app in Hnd. cbn in Hnd.
      apply NoDup_remove_2 in Hnd. intros Hi. apply Hnd.
      apply in_or_app. left. exact Hi. }
    inversion Hok as [|kv l Hm Hrest]; subst. cbn [snd] in Hm.
    set (m' := mkMessage (message_id m) (channel m)
                 (fst (create_status_embed w v))).
    assert (Hnd' : NoDup (PyDict.keys ((done ++ [(k, m')]) ++
                                       d1 ++ (g, msg) :: d2))).
    { unfold PyDict.keys in *. rewrite !map_app in *. cbn [map fst] in *.
      rewrite <- app_assoc. exact Hnd. }
    specialize (IH (done ++ [(k, m')]) Hnd' Hrest Hbad).
    rewrite <- !app_assoc in IH. cbn [app] in IH.
    change (PyDict.keys (((k, m) :: d1) ++ (g, msg) :: d2))
      with (k :: PyDict.keys (d1 ++ (g, msg) :: d2)).
    cbn [edit_loop].
    change (((k, m) :: d1) ++ (g, msg) :: d2)
      with ((k, m) :: d1 ++ (g, msg) :: d2).
    rewrite get_app_fresh by exact Hfresh. cbn [PyDict.get].
    rewrite Z.eqb_refl. unfold edit at 1. rewrite Hm.
    rewrite set_app_fresh by exact Hfresh. cbn [PyDict.set].
    rewrite Z.eqb_refl. fold m'. rewrite IH. reflexivity.
Qed.

Lemma get_some_in (V : Type) k (v : V) d :
  PyDict.get k d = Some v -> In k (PyDict.keys d).
Proof.
  induction d as [|[k' v'] d IH]; cbn; [discriminate|].
  destruct (k =? k') eqn:E; intros H.
  - left. apply Z.eqb_eq in E. congruence.
  - right. exact (IH H).
Qed.

Lemma keys_set_old (V : Type) k (v : V) d :
  In k (PyDict.keys d) -> PyDict.keys (PyDict.set k v d) = PyDict.keys d.
Proof.
  induction d as [|[k' v'] d IH]; cbn; [contradiction|].
  destruct (k =? k') eqn:E; intros H; cbn.
  - apply Z.eqb_eq in E. congruence.
  - f_equal. apply IH. destruct H as [H|H]; [|exact H].
    apply Z.eqb_neq in E. congruence.
Qed.

Lemma keys_set_new (V : Type) k (v : V) d :
  ~ In k (PyDict.keys d) -> PyDict.keys (PyDict.set k v d) = PyDict.keys d ++ [k].
Proof.
  induction d as [|[k' v'] d IH]; cbn; [reflexivity|].
  destruct (k =? k') eqn:E; intros H; cbn.
  - apply Z.eqb_eq in E. contradiction H. left. congruence.
  - f_equal. apply IH. intros Hi. apply H. right. exact Hi.
Qed.

Lemma set_keys_nodup (V : Type) k (v : V) d :
  NoDup (PyDict.keys d) -> NoDup (PyDict.keys (PyDict.set k v d)).
Proof.
  intros Hnd. destruct (in_dec Z.eq_dec k (PyDict.keys d)) as [Hi|Hn].
  - rewrite keys_set_old by exact Hi. exact Hnd.
  - rewrite keys_set_new by exact Hn.
    apply NoDup_rev in Hnd. rewrite <- (rev_involutive (_ ++ [k])).
    apply NoDup_rev. rewrite rev_app_distr. cbn. constructor; [|exact Hnd].
    rewrite <- in_rev. exact Hn.
Qed.

Lemma edit_loop_keys w v guilds : forall msgs msgs' tr r,
  edit_loop w v guilds msgs = (msgs', tr, r) ->
  PyDict.keys msgs' = PyDict.keys msgs.
Proof.
  induction guilds as [|g rest IH]; intros msgs msgs' tr r H.
  - cbn in H. pairs. reflexivity.
  - cbn [edit_loop] in H.
    destruct (PyDict.get g msgs) as [msg|] eqn:Eg; [|pairs; reflexivity].
    destruct (edit w msg _) as [msg'|e]; [|pairs; reflexivity].
    destruct (edit_loop w v rest _) as [[m1 t1] r1] eqn:E. pairs.
    rewrite (IH _ _ _ _ E). apply keys_set_old. exact (get_some_in _ _ Eg).
Qed.

Lemma send_announcement_keys w self self' tr r :
  send_announcement w self = (self', tr, r) ->
  PyDict.keys (messages self') = PyDict.keys (messages self).
Proof.
  unfold send_announcement. intros H.
  destruct (get_door_status w) as [v t0].
  destruct (on_status w self v) as [[s1 t1] r1] eqn:Eo. pairs.
  assert (Ha : forall s t r0, announce w self v = (s, t, r0) ->
                 PyDict.keys (messages s) = PyDict.keys (messages self)).
  { unfold announce. intros s t r0 H.
    destruct (edit_loop w v _ _) as [[msgs t2] r2] eqn:E.
    apply edit_loop_keys in E.
    destruct r2 as [e|]; [pairs; exact E|].
    destruct (m_lookup v) as [label|e]; [|pairs; exact E].
    destruct (append_and_trim _ _) as [s2 t3] eqn:E2.
    apply append_and_trim_spec in E2. destruct E2 as (Hm & _). pairs.
    rewrite Hm. exact E. }
  unfold on_status in Eo.
  destruct (PyList.len (history self) >? 0); [|exact (Ha _ _ _ Eo)].
  destruct (m_lookup v) as [label|e]; [|pairs; reflexivity].
  destruct (PyList.last_item (history self)) as [last|e]; [|pairs; reflexivity].
  destruct (String.eqb label (snd last)); [pairs; reflexivity|].
  exact (Ha _ _ _ Eo).
Qed.

(** In every reachable state the guilds of [self.messages] are distinct. *)
Lemma run_keys_nodup cs : forall self,
  NoDup (PyDict.keys (messages self)) ->
  NoDup (PyDict.keys (messages (fst (run cs self)))).
Proof.
  induction cs as [|c cs IH]; intros self Hnd; [exact Hnd|].
  cbn [run]. destruct (exec c self) as [[s1 t1] r1] eqn:E.
  assert (Hnd1 : NoDup (PyDict.keys (messages s1))).
  { destruct c as [w|w g [ch|name]]; cbn [exec] in E.
    - rewrite (send_announcement_keys _ _ E). exact Hnd.
    - pose proof (link_channel_resolved w self g ch) as H. cbn zeta in H.
      rewrite H in E. pairs. cbn [messages set_messages].
      apply set_keys_nodup. exact Hnd.
    - cbn in E. pairs. exact Hnd. }
  specialize (IH s1 Hnd1). destruct (run cs s1) as [s2 t2]. exact IH.
Qed.

(** C5, as the code has it.  On a transition, the guilds are served one
    after the other in the order of the dictionary.  When the edit for one
    of them raises, the poll ends there with that exception: the guilds
    before it hold their edited message, that guild and every guild after
    it keep the message they had, and no record is appended. *)
Theorem announce_stops_at_failure w self d1 g msg d2 label :
  messages self = d1 ++ (g, msg) :: d2 ->
  NoDup (PyDict.keys (messages self)) ->
  Forall (fun kv => edit_raises w (snd kv) = false) d1 ->
  edit_raises w msg = true ->
  m_lookup (observed w) = Ok label ->
  transition (history self) label ->
  let e := fst (create_status_embed w (observed w)) in
  send_announcement w self =
    (set_messages self (map (edited e) d1 ++ (g, msg) :: d2),
     fetch_log w ++ map edit_event (map (edited e) d1),
     Some (HTTPException (message_id msg))) /\
  history (fst (fst (send_announcement w self))) = history self /\
  appended (snd (fst (send_announcement w self))) = [].
Proof.
  intros Hmsgs Hnd Hok Hbad Hl Ht. cbn zeta.
  assert (Hrun : send_announcement w self =
    (set_messages self
       (map (edited (fst (create_status_embed w (observed w)))) d1 ++ (g, msg) :: d2),
     fetch_log w ++
       map edit_event (map (edited (fst (create_status_embed w (observed w)))) d1),
     Some (HTTPException (message_id msg)))).
  { unfold send_announcement, observed, fetch_log in *.
    destruct (get_door_status w) as [v t0]. cbn [fst snd] in *.
    assert (Ha : announce w self v =
      (set_messages self
         (map (edited (fst (create_status_embed w v))) d1 ++ (g, msg) :: d2),
       map edit_event (map (edited (fst (create_status_embed w v))) d1),
       Some (HTTPException (message_id msg)))).
    { unfold announce. rewrite Hmsgs in *.
      pose proof (@edit_loop_stops w v g msg d2 d1 [] Hnd Hok Hbad) as Hloop.
      cbn [app] in Hloop. cbn zeta in Hloop. rewrite Hloop. reflexivity. }
    unfold on_status. destruct Ht as [Hn|(last & Hla & Hne)].
    - rewrite Hn. cbn [PyList.len length Z.of_nat Z.gtb Z.compare].
      rewrite Ha. reflexivity.
    - rewrite (last_item_len _ Hla), Hl, Hla.
      destruct (String.eqb label (snd last)) eqn:Eq.
      + apply String.eqb_eq in Eq. congruence.
      + rewrite Ha. reflexivity. }
  rewrite Hrun. cbn [fst snd set_messages history]. repeat split.
  rewrite appended_app. destruct (fetch_log_quiet w) as (-> & _).
  cbn [app]. generalize (map (edited (fst (create_status_embed w (observed w)))) d1).
  intros l. induction l as [|kv l IH]; [reflexivity | exact IH].
Qed.

Lemma announce_stops_at_failure_witness :
  history (fst (fst (send_announcement opens_102_gone three_guilds))) = [] /\
  appended (snd (fst (send_announcement opens_102_gone three_guilds))) = [].
Proof.
  assert (Hd : messages three_guilds =
                 [(1, mkMessage 101 (mkChannel 11 "<#11>")
                        (fst (create_status_embed (sees 0 false) (PyBool false))))] ++
                 (2, mkMessage 102 (mkChannel 12 "<#12>")
                       (fst (create_status_embed (sees 0 false) (PyBool false)))) ::
                 [(3, mkMessage 103 (mkChannel 13 "<#13>")
                        (fst (create_status_embed (sees 0 false) (PyBool false))))])
    by reflexivity.
  refine (proj2 (@announce_stops_at_failure opens_102_gone three_guilds
                   _ 2 _ _ "Open" Hd _ _ _ _ _)).
  - cbn. repeat constructor; cbn; intuition discriminate.
  - repeat constructor.
  - reflexivity.
  - reflexivity.
  - left. reflexivity.
Defined.

(** With guild 2's message gone, a poll that sees the door open edits the
    message of guild 1 and stops: the message of guild 3 is not edited and
    the opening is not recorded, while both happen when no edit fails. *)
Lemma isolation_counterexample :
  let failing := send_announcement opens_102_gone three_guilds in
  let working := send_announcement (sees 10 true) three_guilds in
  snd failing = Some (HTTPException 102) /\
  map fst (edits (snd (fst failing))) = [1] /\
  PyDict.get 3 (messages (fst (fst failing))) = PyDict.get 3 (messages three_guilds) /\
  history (fst (fst failing)) = [] /\
  map fst (edits (snd (fst working))) = [1; 2; 3] /\
  history (fst (fst working)) = [(10, "Open")].
Proof. repeat split. Qed.

(** ** Pages *)

Section Windows.
Variable A : Type.
Implicit Types l : list A.

(** The slice between the [k + n] newest and the [k] newest elements,
    newest first, is the window [k, k + n) of the reversed list. *)
Lemma rev_window l k n :
  rev (firstn (Nat.min (length l) (k + n) - Nat.min (length l) k)
              (skipn (length l - Nat.min (length l) (k + n)) l)) =
  firstn n (skipn k (rev l)).
Proof.
  rewrite skipn_rev, firstn_rev, length_firstn. f_equal.
  rewrite firstn_skipn_comm.
  replace (Nat.min (length l - k) (length l) - n)%nat
    with (length l - Nat.min (length l) (k + n))%nat by lia.
  f_equal.
  destruct (Nat.le_gt_cases (length l) k) as [H|H].
  - replace (length l - k)%nat with 0%nat by lia.
    replace (_ + _)%nat with 0%nat by lia. reflexivity.
  - f_equal. lia.
Qed.

Lemma firstn_plus a b : forall l,
  firstn (a + b) l = firstn a l ++ firstn b (skipn a l).
Proof.
  induction a as [|a IH]; intros l; [reflexivity|].
  destruct l as [|x l]; cbn.
  - rewrite firstn_nil. reflexivity.
  - rewrite IH. reflexivity.
Qed.

Lemma concat_windows l n t :
  concat (map (fun p => firstn n (skipn (p * n) l)) (seq 0 t)) =
  firstn (t * n) l.
Proof.
  induction t as [|t IH]; [reflexivity|].
  rewrite seq_S, map_app, concat_app, IH. cbn [map concat Nat.add].
  rewrite app_nil_r, <- firstn_plus. f_equal. lia.
Qed.

Lemma Forall_firstn (P : A -> Prop) n : forall l,
  Forall P l -> Forall P (firstn n l).
Proof.
  induction n as [|n IH]; intros l H; [constructor|].
  destruct H; cbn; constructor; auto.
Qed.

Lemma Forall_skipn (P : A -> Prop) n : forall l,
  Forall P l -> Forall P (skipn n l).
Proof.
  induction n as [|n IH]; intros l H; [exact H|].
  destruct H; cbn; [constructor | auto].
Qed.
End Windows.

Lemma slice_clipped (A : Type) (l : list A) (k n : nat) (start stop : Z) :
  PyList.clip l start = Z.of_nat (length l - Nat.min (length l) (k + n)) ->
  PyList.clip l stop = Z.of_nat (length l - Nat.min (length l) k) ->
  rev (PyList.slice l start stop) = firstn n (skipn k (rev l)).
Proof.
  intros Hs He. unfold PyList.slice. rewrite Hs, He, <- rev_window.
  rewrite Nat2Z.id. do 2 f_equal. lia.
Qed.

(** Page [p >= 0] shows the window [p * n, p * n + n) of the history read
    newest first, for a page size [n >= 1]. *)
Lemma page_records_window self p :
  1 <= num_per_page self -> 0 <= p ->
  page_records self p =
    firstn (Z.to_nat (num_per_page self))
           (skipn (Z.to_nat (p * num_per_page self)) (rev (history self))).
Proof.
  intros Hn Hp. unfold page_records, page_start, page_end.
  set (n := num_per_page self) in *. set (h := history self).
  apply slice_clipped.
  - unfold PyList.clip, PyList.len.
    destruct (- (p + 1) * n <? 0) eqn:E; [|apply Z.ltb_ge in E; nia].
    assert (0 <= p * n) by nia. lia.
  - unfold PyList.clip, PyList.len.
    destruct (p =? 0) eqn:E0; cbn [negb].
    + apply Z.eqb_eq in E0. subst p.
      destruct (Z.of_nat (length h) <? 0) eqn:E; [apply Z.ltb_lt in E; lia|].
      cbn. lia.
    + apply Z.eqb_neq in E0.
      destruct (- p * n <? 0) eqn:E; [|apply Z.ltb_ge in E; nia].
      assert (0 <= p * n) by nia. lia.
Qed.

Lemma get_total_pages_ceil self :
  1 <= num_per_page self ->
  exists total, get_total_pages self = Ok total /\ 0 <= total /\
    PyList.len (history self) <= total * num_per_page self /\
    total * num_per_page self < PyList.len (history self) + num_per_page self.
Proof.
  intros Hn. unfold get_total_pages.
  set (n := num_per_page self) in *. set (len := PyList.len (history self)).
  assert (Hlen : 0 <= len) by apply len_nonneg.
  destruct (n =? 0) eqn:E0; [apply Z.eqb_eq in E0; lia|].
  eexists. split; [reflexivity|].
  pose proof (Z.div_mod len n ltac:(lia)) as Hdm.
  pose proof (Z.mod_pos_bound len n ltac:(lia)) as Hmod.
  assert (0 <= len / n) by (apply Z.div_pos; lia).
  destruct (len mod n =? 0) eqn:Em; cbn [negb].
  - apply Z.eqb_eq in Em. nia.
  - apply Z.eqb_neq in Em. nia.
Qed.

Lemma string_app_assoc (a b c : string) :
  ((a ++ b) ++ c = a ++ (b ++ c))%string.
Proof. induction a as [|ch a IH]; cbn; [reflexivity | rewrite IH; reflexivity]. Qed.

Lemma string_app_empty (a : string) : (a ++ "")%string = a.
Proof. induction a as [|ch a IH]; cbn; [reflexivity | rewrite IH; reflexivity]. Qed.

Lemma listing_app rs1 rs2 :
  listing (rs1 ++ rs2) = (listing rs1 ++ listing rs2)%string.
Proof.
  induction rs1 as [|r rs1 IH]; cbn [app listing]; [reflexivity|].
  rewrite IH, string_app_assoc. reflexivity.
Qed.

Lemma add_lines_listing rs : forall desc,
  labelled rs -> add_lines rs desc = Ok (desc ++ listing rs)%string.
Proof.
  induction rs as [|[t st] rs IH]; intros desc Hl; cbn [add_lines listing].
  - rewrite string_app_empty. reflexivity.
  - inversion Hl as [|r l Hst Hrest]; subst. cbn [snd fst] in *.
    unfold emojis, emoji_of.
    destruct Hst as [-> | ->]; cbn [String.eqb Ascii.eqb Bool.eqb];
      rewrite IH by assumption; rewrite string_app_assoc; reflexivity.
Qed.

Lemma page_records_labelled self p :
  labelled (history self) -> labelled (page_records self p).
Proof.
  intros H. unfold page_records, PyList.slice, labelled.
  apply Forall_rev, Forall_firstn, Forall_skipn. exact H.
Qed.

(** On a history of labelled records and with a page size other than 0,
    [get_page] returns an embed whose description lists the page's
    records, newest at the top. *)
Lemma get_page_listing self p total :
  labelled (history self) -> get_total_pages self = Ok total ->
  get_page self p =
    Ok (mkEmbed "Door History" (listing (page_records self p)) Blurple None
          (Some ("Showing page " ++ str_of_int (p + 1) ++ "/" ++
                 str_of_int total)%string)).
Proof.
  intros Hl Ht. unfold get_page.
  rewrite add_lines_listing by (apply page_records_labelled; exact Hl).
  rewrite Ht. reflexivity.
Qed.

(** The records a session leaves in the history are labelled. *)
Lemma run_labelled cs : forall self,
  labelled (history self) -> labelled (history (fst (run cs self))).
Proof.
  induction cs as [|c cs IH]; intros self Hl; [exact Hl|].
  cbn [run]. destruct (exec c self) as [[s1 t1] r1] eqn:E.
  apply exec_step in E. destruct E as (_ & _ & Hs).
  assert (Hl1 : labelled (history s1)).
  { destruct Hs as [ | r h1 _ Hr Hh _ _]; [exact Hl|].
    subst h1. unfold trimmed.
    assert (Hall : labelled (history self ++ [r])).
    { apply Forall_app. split; [exact Hl | constructor; [exact Hr | constructor]]. }
    destruct (PyList.len (history self ++ [r]) >? max_history_len self);
      [|exact Hall].
    exact (Forall_skipn 1 Hall). }
  specialize (IH s1 Hl1). destruct (run cs s1) as [s2 t2]. exact IH.
Qed.

(** C3.  For a page size of at least 1: [get_total_pages] returns the
    least number of pages of that size that hold the whole history; page
    [p] holds the records at positions [p * n .. p * n + n - 1] of the
    history read newest first, as far as they exist; and the records of the
    pages [0 .. total - 1] put one after the other are the history read
    newest first.  When the records are labelled, [get_page p] returns the
    embed that lists these records. *)
Theorem pagination_round_trip self :
  1 <= num_per_page self ->
  exists total,
    get_total_pages self = Ok total /\
    0 <= total /\
    PyList.len (history self) <= total * num_per_page self /\
    total * num_per_page self < PyList.len (history self) + num_per_page self /\
    (forall p, 0 <= p ->
       page_records self p =
         firstn (Z.to_nat (num_per_page self))
                (skipn (Z.to_nat (p * num_per_page self)) (rev (history self)))) /\
    concat (map (page_records self) (page_numbers total)) = rev (history self) /\
    (labelled (history self) ->
       forall p, exists e, get_page self p = Ok e /\
                           description e = listing (page_records self p)).
Proof.
  intros Hn. destruct (get_total_pages_ceil self Hn) as (total & Ht & H0 & Hlo & Hhi).
  exists total. repeat split; trivial.
  - intros p Hp. apply page_records_window; assumption.
  - unfold page_numbers. rewrite map_map.
    rewrite (map_ext_in _ (fun p => firstn (Z.to_nat (num_per_page self))
               (skipn (p * Z.to_nat (num_per_page self)) (rev (history self))))).
    + rewrite concat_windows. apply firstn_all2. rewrite length_rev.
      unfold PyList.len in Hlo. nia.
    + intros p _. rewrite page_records_window by lia.
      do 2 f_equal. lia.
  - intros Hl p. eexists. split; [apply (get_page_listing _ p Hl Ht)|].
    reflexivity.
Qed.

Lemma pagination_round_trip_witness :
  1 <= num_per_page (fst (run demo_session demo)) /\
  exists total,
    get_total_pages (fst (run demo_session demo)) = Ok total /\
    concat (map (page_records (fst (run demo_session demo))) (page_numbers total)) =
      rev (history (fst (run demo_session demo))).
Proof.
  split; [cbn; lia|].
  destruct (@pagination_round_trip (fst (run demo_session demo)))
    as (total & Ht & _ & _ & _ & _ & Hc & _); [cbn; lia|].
  exists total. split; assumption.
Defined.

(** C9.  For a page size of at least 1, a page at or past the number of
    pages has no records, and [get_page] returns for it an embed with an
    empty description; for a negative page, on a history of labelled
    records, [get_page] returns an embed as well. *)
Theorem out_of_range_pages self :
  1 <= num_per_page self ->
  (forall total p,
      get_total_pages self = Ok total -> total <= p ->
      page_records self p = [] /\
      exists e, get_page self p = Ok e /\ description e = "") /\
  (labelled (history self) ->
   forall p, p < 0 -> exists e, get_page self p = Ok e).
Proof.
  intros Hn. split.
  - intros total p Ht Hp.
    destruct (get_total_pages_ceil self Hn) as (t' & Ht' & H0 & Hlo & _).
    rewrite Ht in Ht'. inversion Ht'; subst t'. clear Ht'.
    assert (Hrec : page_records self p = []).
    { rewrite page_records_window by lia.
      rewrite skipn_all2; [apply firstn_nil|].
      rewrite length_rev. unfold PyList.len in Hlo. nia. }
    split; [exact Hrec|].
    unfold get_page. rewrite Hrec, Ht. cbn [add_lines].
    eexists. split; reflexivity.
  - intros Hl p _.
    destruct (get_total_pages_ceil self Hn) as (total & Ht & _).
    eexists. apply (get_page_listing _ p Hl Ht).
Qed.

Lemma out_of_range_pages_witness :
  1 <= num_per_page (fst (run demo_session demo)) /\
  page_records (fst (run demo_session demo)) 2 = [] /\
  (exists e, get_page (fst (run demo_session demo)) 2 = Ok e /\ description e = "") /\
  (exists e, get_page (fst (run demo_session demo)) (-1) = Ok e).
Proof.
  split; [cbn; lia|].
  destruct (@out_of_range_pages (fst (run demo_session demo))) as [Hbig Hneg];
    [cbn; lia|].
  destruct (Hbig 2 2) as [Hr He]; [reflexivity | lia |].
  split; [exact Hr|]. split; [exact He|].
  apply Hneg; [|lia].
  apply (@run_labelled demo_session demo). constructor.
Defined.

(** ** Further properties: links *)

(** X1.  Right after a link that resolved a channel, [test_link] in the
    same guild replies that the monitor is linked and names that channel. *)
Theorem link_then_test_reports_channel w self guild_id c :
  test_link (fst (fst (link_channel w self guild_id (Resolved c)))) guild_id =
    link_report (Some c).
Proof.
  pose proof (link_channel_resolved w self guild_id c) as H. cbn zeta in H.
  rewrite H. unfold test_link. cbn [fst messages set_messages].
  rewrite get_set_same. reflexivity.
Qed.

(** X2.  A link in one guild leaves the entry of every other guild, the
    history and the three settings as they were, whether or not the channel
    resolved. *)
Theorem link_is_local w self guild_id ch other :
  other <> guild_id ->
  let self' := fst (fst (link_channel w self guild_id ch)) in
  PyDict.get other (messages self') = PyDict.get other (messages self) /\
  history self' = history self /\
  max_history_len self' = max_history_len self /\
  num_per_page self' = num_per_page self /\
  refresh_rate self' = refresh_rate self.
Proof.
  intros Hne. cbn zeta. destruct ch as [c|name].
  - pose proof (link_channel_resolved w self guild_id c) as H. cbn zeta in H.
    rewrite H. cbn [fst messages set_messages history max_history_len
                    num_per_page refresh_rate].
    rewrite get_set_other by exact Hne. repeat split.
  - cbn. repeat split.
Qed.

Lemma link_is_local_witness :
  PyDict.get 1 (messages (fst (fst (link_channel (sees 9 true) three_guilds 2
                                      (Resolved lobby))))) =
  PyDict.get 1 (messages three_guilds).
Proof.
  apply (@link_is_local (sees 9 true) three_guilds 2 (Resolved lobby) 1). lia.
Defined.

Lemma edit_loop_handles w v guilds : forall msgs msgs' tr r g,
  edit_loop w v guilds msgs = (msgs', tr, r) ->
  option_map handle (PyDict.get g msgs') = option_map handle (PyDict.get g msgs).
Proof.
  induction guilds as [|k rest IH]; intros msgs msgs' tr r g H.
  - cbn in H. pairs. reflexivity.
  - cbn [edit_loop] in H.
    destruct (PyDict.get k msgs) as [msg|] eqn:Eg; [|pairs; reflexivity].
    unfold edit in H.
    destruct (edit_raises w msg); [pairs; reflexivity|].
    destruct (edit_loop w v rest _) as [[m1 t1] r1] eqn:E. pairs.
    rewrite (IH _ _ _ _ g E).
    destruct (Z.eq_dec g k) as [->|Hne].
    + rewrite get_set_same, Eg. reflexivity.
    + rewrite get_set_other by exact Hne. reflexivity.
Qed.

Lemma send_announcement_handles w self g :
  option_map handle
    (PyDict.get g (messages (fst (fst (send_announcement w self))))) =
  option_map handle (PyDict.get g (messages self)).
Proof.
  unfold send_announcement.
  destruct (get_door_status w) as [v t0].
  destruct (on_status w self v) as [[s1 t1] r1] eqn:Eo. cbn [fst].
  assert (Ha : forall s t r0, announce w self v = (s, t, r0) ->
                 option_map handle (PyDict.get g (messages s)) =
                 option_map handle (PyDict.get g (messages self))).
  { unfold announce. intros s t r0 H.
    destruct (edit_loop w v _ _) as [[msgs t2] r2] eqn:E.
    apply (edit_loop_handles _ _ _ _ g) in E.
    destruct r2 as [e|]; [pairs; exact E|].
    destruct (m_lookup v) as [label|e]; [|pairs; exact E].
    destruct (append_and_trim _ _) as [s2 t3] eqn:E2.
    apply append_and_trim_spec in E2. destruct E2 as (Hm & _). pairs.
    rewrite Hm. exact E. }
  unfold on_status in Eo.
  destruct (PyList.len (history self) >? 0); [|exact (Ha _ _ _ Eo)].
  destruct (m_lookup v) as [label|e]; [|pairs; reflexivity].
  destruct (PyList.last_item (history self)) as [last|e]; [|pairs; reflexivity].
  destruct (String.eqb label (snd last)); [pairs; reflexivity|].
  exact (Ha _ _ _ Eo).
Qed.

(** X3.  A poll, whatever it observes and whatever fails in it, leaves
    every guild with a message of the same id in the same channel, and a
    guild without a message without one: only the content of a message
    can change. *)
Theorem poll_keeps_handles w self g :
  option_map handle
    (PyDict.get g (messages (fst (fst (send_announcement w self))))) =
  option_map handle (PyDict.get g (messages self)).
Proof. exact (send_announcement_handles w self g). Qed.

Lemma test_link_report self g :
  test_link self g = link_report (option_map channel (PyDict.get g (messages self))).
Proof. unfold test_link. destruct (PyDict.get g (messages self)); reflexivity. Qed.

Lemma handle_channel (a b : option Message) :
  option_map handle a = option_map handle b ->
  option_map channel a = option_map channel b.
Proof.
  destruct a as [x|], b as [y|]; cbn; intros H; inversion H; congruence.
Qed.

Lemma run_last_link g cs : forall self,
  option_map channel (PyDict.get g (messages (fst (run cs self)))) =
  last_link g cs (option_map channel (PyDict.get g (messages self))).
Proof.
  induction cs as [|c cs IH]; intros self; [reflexivity|].
  cbn [run]. destruct (exec c self) as [[s1 t1] r1] eqn:E.
  specialize (IH s1). destruct (run cs s1) as [s2 t2]. cbn [fst] in *.
  rewrite IH. clear IH. destruct c as [w|w g' [ch|name]]; cbn [exec last_link] in *.
  - f_equal. apply handle_channel.
    pose proof (send_announcement_handles w self g) as H. rewrite E in H. exact H.
  - pose proof (link_channel_resolved w self g' ch) as H. cbn zeta in H.
    rewrite H in E. pairs. cbn [messages set_messages]. f_equal.
    destruct (g' =? g) eqn:Eg.
    + apply Z.eqb_eq in Eg. subst g'. rewrite get_set_same. reflexivity.
    + apply Z.eqb_neq in Eg. rewrite get_set_other by congruence. reflexivity.
  - cbn in E. pairs. reflexivity.
Qed.

(** X4.  After any session of a fresh cog, [test_link] in a guild names the
    channel of the last link of that guild that resolved a channel, however
    many polls and links of other guilds came after it, and replies that the
    monitor is not linked when there was no such link: nothing unlinks. *)
Theorem test_link_after_session refresh n cap cs g :
  test_link (fst (run cs (init refresh n cap))) g =
    link_report (last_link g cs None).
Proof. rewrite test_link_report, run_last_link. reflexivity. Qed.

(** ** Further properties: announcements *)

Lemma edit_loop_all w v : forall d done,
  NoDup (PyDict.keys (done ++ d)) ->
  Forall (fun kv => edit_raises w (snd kv) = false) d ->
  edit_loop w v (PyDict.keys d) (done ++ d) =
    (done ++ map (edited (fst (create_status_embed w v))) d,
     map edit_event (map (edited (fst (create_status_embed w v))) d),
     None).
Proof.
  induction d as [|[k m] d IH]; intros done Hnd Hok; [reflexivity|].
  assert (Hfresh : ~ In k (PyDict.keys done)).
  { unfold PyDict.keys in *. rewrite map_app in Hnd. cbn in Hnd.
    apply NoDup_remove_2 in Hnd. intros Hi. apply Hnd.
    apply in_or_app. left. exact Hi. }
  inversion Hok as [|kv l Hm Hrest]; subst. cbn [snd] in Hm.
  set (m' := mkMessage (message_id m) (channel m)
               (fst (create_status_embed w v))).
  assert (Hnd' : NoDup (PyDict.keys ((done ++ [(k, m')]) ++ d))).
  { unfold PyDict.keys in *. rewrite !map_app in *. cbn [map fst] in *.
    rewrite <- app_assoc. exact Hnd. }
  specialize (IH (done ++ [(k, m')]) Hnd' Hrest).
  rewrite <- !app_assoc in IH. cbn [app] in IH.
  change (PyDict.keys ((k, m) :: d)) with (k :: PyDict.keys d).
  cbn [edit_loop].
  rewrite get_app_fresh by exact Hfresh. cbn [PyDict.get].
  rewrite Z.eqb_refl. unfold edit at 1. rewrite Hm.
  rewrite set_app_fresh by exact Hfresh. cbn [PyDict.set].
  rewrite Z.eqb_refl. fold m'. rewrite IH. reflexivity.
Qed.

Lemma edits_edit_events l : edits (map edit_event l) = l.
Proof.
  induction l as [|[g m] l IH]; [reflexivity|]. cbn. rewrite IH. reflexivity.
Qed.

Lemma appended_edit_events l : appended (map edit_event l) = [].
Proof. induction l as [|kv l IH]; [reflexivity | exact IH]. Qed.

Lemma append_and_trim_edits self r :
  edits (snd (append_and_trim self r)) = [] /\
  appended (snd (append_and_trim self r)) = [r].
Proof.
  destruct (append_and_trim self r) as [s t] eqn:E.
  apply append_and_trim_spec in E. cbn [snd]. tauto.
Qed.

Lemma poll_edits_all w self label :
  NoDup (PyDict.keys (messages self)) ->
  Forall (fun kv => edit_raises w (snd kv) = false) (messages self) ->
  m_lookup (observed w) = Ok label ->
  transition (history self) label ->
  let e := fst (create_status_embed w (observed w)) in
  let out := send_announcement w self in
  snd out = None /\
  messages (fst (fst out)) = map (edited e) (messages self) /\
  edits (snd (fst out)) = map (edited e) (messages self) /\
  appended (snd (fst out)) = [(now w, label)] /\
  history (fst (fst out)) =
    trimmed (max_history_len self) (history self ++ [(now w, label)]).
Proof.
  intros Hnd Hok Hl Ht. cbn zeta.
  unfold send_announcement, observed in *.
  destruct (fetch_log_quiet w) as (Fa & _ & Fe). unfold fetch_log in Fa, Fe.
  destruct (get_door_status w) as [v t0]. cbn [fst snd] in *.
  assert (Hos : on_status w self v = announce w self v).
  { unfold on_status. destruct Ht as [Hn|(last & Hla & Hne)].
    - rewrite Hn. reflexivity.
    - rewrite (last_item_len _ Hla), Hl, Hla.
      destruct (String.eqb label (snd last)) eqn:Eq; [|reflexivity].
      apply String.eqb_eq in Eq. congruence. }
  rewrite Hos. unfold announce.
  pose proof (@edit_loop_all w v (messages self) [] Hnd Hok) as Hloop.
  cbn [app] in Hloop. rewrite Hloop, Hl.
  destruct (append_and_trim_edits
              (set_messages self
                 (map (edited (fst (create_status_embed w v))) (messages self)))
              (now w, label)) as [He Ha].
  destruct (append_and_trim _ _) as [s2 t2] eqn:E2.
  apply append_and_trim_spec in E2. destruct E2 as (Hm & _ & _ & Hh & _).
  cbn [fst snd] in *. cbn [messages set_messages history max_history_len] in *.
  repeat split; trivial.
  - rewrite !edits_app, Fe, He, edits_edit_events, app_nil_r. reflexivity.
  - rewrite !appended_app, Fa, Ha, appended_edit_events. reflexivity.
Qed.

(** X5.  On a transition in which no edit fails, every linked guild has
    its message edited once, in the order of the dictionary, to the embed
    of the observed state; each message keeps its id and channel; one
    record, stamped with the time of the poll, is appended and the history
    is trimmed to the cap; and the poll ends without an exception. *)
Theorem announcement_reaches_every_guild w self label :
  NoDup (PyDict.keys (messages self)) ->
  Forall (fun kv => edit_raises w (snd kv) = false) (messages self) ->
  m_lookup (observed w) = Ok label ->
  transition (history self) label ->
  let e := fst (create_status_embed w (observed w)) in
  let out := send_announcement w self in
  snd out = None /\
  messages (fst (fst out)) = map (edited e) (messages self) /\
  edits (snd (fst out)) = map (edited e) (messages self) /\
  appended (snd (fst out)) = [(now w, label)] /\
  history (fst (fst out)) =
    trimmed (max_history_len self) (history self ++ [(now w, label)]).
Proof. exact (@poll_edits_all w self label). Qed.

Lemma announcement_reaches_every_guild_witness :
  map fst (edits (snd (fst (send_announcement (sees 10 true) three_guilds)))) =
    [1; 2; 3] /\
  history (fst (fst (send_announcement (sees 10 true) three_guilds))) =
    [(10, "Open")].
Proof.
  destruct (@announcement_reaches_every_guild (sees 10 true) three_guilds "Open")
    as (_ & _ & He & _ & Hh).
  - cbn. repeat constructor; cbn; intuition discriminate.
  - repeat constructor.
  - reflexivity.
  - left. reflexivity.
  - split; [rewrite He; reflexivity | rewrite Hh; reflexivity].
Defined.

(** X6.  For every value of [door_open] that [m] accepts (a boolean, 0 or
    1), the embed shown and the label recorded agree: the open view goes
    with ["Open"], the closed view with ["Closed"]. *)
Theorem embed_agrees_with_label w v label :
  m_lookup v = Ok label ->
  (label = "Open" /\ fst (create_status_embed w v) = open_embed (now w)) \/
  (label = "Closed" /\ fst (create_status_embed w v) = closed_embed (now w)).
Proof.
  destruct v as [|[|]|[|[| |]|]|]; cbn; intros H; inversion H; subst;
    (left; split; reflexivity) || (right; split; reflexivity).
Qed.

Lemma embed_agrees_with_label_witness :
  ("Open" = "Open" /\
   fst (create_status_embed (sees 4 true) (PyInt 1)) = open_embed 4) \/
  ("Open" = "Closed" /\
   fst (create_status_embed (sees 4 true) (PyInt 1)) = closed_embed 4).
Proof.
  apply (@embed_agrees_with_label (sees 4 true) (PyInt 1) "Open"). reflexivity.
Defined.

(** X7.  The view [link_channel] sends and stores is the closed one when
    the history is empty and the open one whenever the history has a
    record, for a history of labelled records. *)
Theorem link_view_by_history w self guild_id c :
  labelled (history self) ->
  PyDict.get guild_id
    (messages (fst (fst (link_channel w self guild_id (Resolved c))))) =
  Some (mkMessage (fresh_id w) c
          (if PyList.len (history self) >? 0
           then open_embed (now w) else closed_embed (now w))).
Proof.
  intros Hl.
  pose proof (link_channel_resolved w self guild_id c) as H. cbn zeta in H.
  rewrite H. cbn [fst messages set_messages]. rewrite get_set_same.
  do 2 f_equal. unfold link_val.
  destruct (PyList.len (history self) >? 0) eqn:El.
  - destruct (len_pos_snoc _ El) as (h & x & Hh). rewrite Hh, last_item_snoc.
    rewrite Hh in Hl. apply Forall_app in Hl. destruct Hl as [_ Hx].
    inversion Hx as [|y l Hy _]; subst.
    destruct Hy as [-> | ->]; reflexivity.
  - rewrite (len_zero_nil _ El). reflexivity.
Qed.

Lemma link_view_by_history_witness :
  PyDict.get 77
    (messages (fst (fst (link_channel (sees 9 false) demo 77 (Resolved lobby))))) =
  Some (mkMessage 0 lobby (closed_embed 9)).
Proof.
  apply (@link_view_by_history (sees 9 false) demo 77 lobby). constructor.
Defined.

Lemma raising_poll_history w self self' tr e :
  send_announcement w self = (self', tr, Some e) ->
  history self' = history self /\ appended tr = [] /\ evicted tr = [].
Proof.
  unfold send_announcement. intros H.
  destruct (fetch_log_quiet w) as (Fa & Fe & _). unfold fetch_log in Fa, Fe.
  destruct (get_door_status w) as [v t0]. cbn [snd] in Fa, Fe.
  destruct (on_status w self v) as [[s1 t1] r1] eqn:Eo. pairs.
  rewrite appended_app, evicted_app, Fa, Fe. cbn [app].
  assert (Ha : forall s t, announce w self v = (s, t, Some e) ->
                 history s = history self /\ appended t = [] /\ evicted t = []).
  { intros s t Hs. apply announce_spec in Hs.
    destruct Hs as (_ & _ & [(_ & Hh & Happ & Hev)|(label & Hr & _)]).
    - repeat split; assumption.
    - discriminate Hr. }
  unfold on_status in Eo.
  destruct (PyList.len (history self) >? 0); [|exact (Ha _ _ Eo)].
  destruct (m_lookup v) as [label|e']; [|pairs; repeat split].
  destruct (PyList.last_item (history self)) as [last|e']; [|pairs; repeat split].
  destruct (String.eqb label (snd last)); [discriminate Eo|].
  exact (Ha _ _ Eo).
Qed.

(** X8.  A poll that ends with an exception, raised by an edit or by the
    lookup of an unexpected value in [m], appends no record and leaves the
    history as it was. *)
Theorem failed_poll_keeps_history w self self' tr e :
  send_announcement w self = (self', tr, Some e) ->
  history self' = history self /\ appended tr = [] /\ evicted tr = [].
Proof. exact (@raising_poll_history w self self' tr e). Qed.

Lemma failed_poll_keeps_history_witness :
  history (fst (fst (send_announcement opens_102_gone three_guilds))) =
  history three_guilds.
Proof.
  refine (proj1 (@failed_poll_keeps_history opens_102_gone three_guilds
                   (fst (fst (send_announcement opens_102_gone three_guilds)))
                   (snd (fst (send_announcement opens_102_gone three_guilds)))
                   (HTTPException 102) _)).
  reflexivity.
Defined.

(** ** Further properties: pages *)

Lemma firstn_min_length (A : Type) (n : nat) (l : list A) :
  firstn (Nat.min n (length l)) l = firstn n l.
Proof.
  destruct (Nat.le_gt_cases n (length l)) as [H|H].
  - rewrite Nat.min_l by exact H. reflexivity.
  - rewrite Nat.min_r by lia. rewrite !firstn_all2 by lia. reflexivity.
Qed.

(** X9.  For a page size [n >= 1], a negative page [-k] lists the [k]-th
    block of [n] records counted from the oldest end of the history, the
    newest record of the block at the top: page [-1] shows the oldest [n]
    records. *)
Theorem negative_page_window self p :
  1 <= num_per_page self -> p < 0 ->
  page_records self p =
    rev (firstn (Z.to_nat (num_per_page self))
                (skipn (Z.to_nat ((- p - 1) * num_per_page self)) (history self))).
Proof.
  intros Hn Hp. unfold page_records, page_start, page_end, PyList.slice.
  set (n := num_per_page self) in *. set (h := history self).
  f_equal.
  assert (Hs : 0 <= (- p - 1) * n) by nia.
  replace (- (p + 1) * n) with ((- p - 1) * n) by lia.
  destruct (p =? 0) eqn:E0; [apply Z.eqb_eq in E0; lia|]. cbn [negb].
  replace (- p * n) with ((- p - 1) * n + n) by lia.
  set (s := (- p - 1) * n) in *.
  unfold PyList.clip, PyList.len.
  destruct (s <? 0) eqn:E1; [apply Z.ltb_lt in E1; lia|].
  destruct (s + n <? 0) eqn:E2; [apply Z.ltb_lt in E2; lia|].
  destruct (Z_lt_le_dec s (Z.of_nat (length h))) as [Hlt|Hge].
  - replace (Z.min s (Z.of_nat (length h))) with s by lia.
    rewrite <- (firstn_min_length (Z.to_nat n)). rewrite length_skipn.
    f_equal. lia.
  - replace (Z.min s (Z.of_nat (length h))) with (Z.of_nat (length h)) by lia.
    rewrite Nat2Z.id.
    rewrite (skipn_all2 (n := length h)) by lia.
    rewrite (skipn_all2 (n := Z.to_nat s)) by lia.
    rewrite !firstn_nil. reflexivity.
Qed.

Lemma negative_page_window_witness :
  page_records (fst (run demo_session demo)) (-1) = [(4, "Closed"); (2, "Open")].
Proof.
  rewrite (@negative_page_window (fst (run demo_session demo)) (-1));
    [reflexivity | cbn; lia | lia].
Defined.

(** X10.  On a history of labelled records, [get_page] raises exactly when
    the page size is 0, and then with the [ZeroDivisionError] of
    [get_total_pages]; for every other page size and every page number,
    positive or not, it returns an embed. *)
Theorem get_page_raises_iff_no_page_size self p :
  labelled (history self) ->
  (num_per_page self = 0 ->
     get_total_pages self = Raise ZeroDivisionError /\
     get_page self p = Raise ZeroDivisionError) /\
  (num_per_page self <> 0 ->
     exists total e, get_total_pages self = Ok total /\ get_page self p = Ok e).
Proof.
  intros Hl. split; intros Hn.
  - assert (Ht : get_total_pages self = Raise ZeroDivisionError).
    { unfold get_total_pages. rewrite Hn. reflexivity. }
    split; [exact Ht|]. unfold get_page.
    rewrite add_lines_listing by (apply page_records_labelled; exact Hl).
    rewrite Ht. reflexivity.
  - assert (Ht : exists total, get_total_pages self = Ok total).
    { unfold get_total_pages. apply Z.eqb_neq in Hn. rewrite Hn.
      eexists. reflexivity. }
    destruct Ht as (total & Ht). exists total. eexists. split; [exact Ht|].
    apply (get_page_listing _ p Hl Ht).
Qed.

Lemma get_page_raises_iff_no_page_size_witness :
  get_page (init 1 0 1000) 0 = Raise ZeroDivisionError /\
  exists total e, get_total_pages (init 1 (-3) 1000) = Ok total /\
                  get_page (init 1 (-3) 1000) 5 = Ok e.
Proof.
  split.
  - apply (proj1 (@get_page_raises_iff_no_page_size (init 1 0 1000) 0
                    (Forall_nil _))). reflexivity.
  - apply (proj2 (@get_page_raises_iff_no_page_size (init 1 (-3) 1000) 5
                    (Forall_nil _))). cbn. lia.
Defined.

Lemma slice_nil (A : Type) (a b : Z) : PyList.slice (@nil A) a b = [].
Proof. unfold PyList.slice. rewrite skipn_nil, firstn_nil. reflexivity. Qed.

(** X11.  While the history is empty, every page of every non-zero page
    size comes back with an empty description and a footer that counts 0
    pages: [Showing page p+1/0]. *)
Theorem empty_history_page self p :
  history self = [] -> num_per_page self <> 0 ->
  get_total_pages self = Ok 0 /\
  get_page self p =
    Ok (mkEmbed "Door History" "" Blurple None
          (Some ("Showing page " ++ str_of_int (p + 1) ++ "/0")%string)).
Proof.
  intros Hh Hn.
  assert (Ht : get_total_pages self = Ok 0).
  { unfold get_total_pages. rewrite Hh. apply Z.eqb_neq in Hn. rewrite Hn.
    cbn [PyList.len length Z.of_nat]. rewrite Zdiv_0_l, Zmod_0_l. reflexivity. }
  split; [exact Ht|].
  unfold get_page, page_records. rewrite Hh, slice_nil, Ht. reflexivity.
Qed.

Lemma empty_history_page_witness :
  get_page init_default 0 =
    Ok (mkEmbed "Door History" "" Blurple None (Some "Showing page 1/0")).
Proof.
  apply (proj2 (@empty_history_page init_default 0 eq_refl ltac:(cbn; lia))).
Defined.

(** X12.  After any session of a cog whose page size is at least 1 and
    whose history started out labelled, the history command sends the embed
    that lists the newest records, at most one page of them, newest at the
    top, with a view owned by the caller that times out after 20 seconds. *)
Theorem history_command_shows_newest cs self author :
  1 <= num_per_page self -> labelled (history self) ->
  let self' := fst (run cs self) in
  exists e, get_history self' author = Ok (e, mkPageView author 20) /\
            description e =
              listing (firstn (Z.to_nat (num_per_page self)) (rev (history self'))).
Proof.
  intros Hn Hl. cbn zeta.
  assert (Hn' : num_per_page (fst (run cs self)) = num_per_page self).
  { clear Hn Hl. revert self. induction cs as [|c cs IH]; intros self; [reflexivity|].
    cbn [run]. destruct (exec c self) as [[s1 t1] r1] eqn:E.
    apply exec_step in E. destruct E as (_ & Hp & _).
    specialize (IH s1). destruct (run cs s1) as [s2 t2]. cbn [fst] in *.
    congruence. }
  pose proof (run_labelled cs self Hl) as Hl'.
  destruct (get_total_pages_ceil (fst (run cs self))) as (total & Ht & _);
    [rewrite Hn'; exact Hn|].
  unfold get_history. rewrite (get_page_listing _ 0 Hl' Ht).
  eexists. split; [reflexivity|]. cbn [description].
  rewrite page_records_window by (rewrite ?Hn'; lia).
  rewrite Hn'. reflexivity.
Qed.

Lemma history_command_shows_newest_witness :
  exists e, get_history (fst (run demo_session demo)) 42 = Ok (e, mkPageView 42 20) /\
            description e =
              listing (firstn 2 (rev (history (fst (run demo_session demo))))).
Proof.
  apply (@history_command_shows_newest demo_session demo 42);
    [cbn; lia | constructor].
Defined.

(** ** Further properties: what the history holds *)

Lemma send_announcement_appended w self self' tr r rec :
  send_announcement w self = (self', tr, r) ->
  In rec (appended tr) ->
  fst rec = now w /\ m_lookup (observed w) = Ok (snd rec).
Proof.
  unfold send_announcement, observed. intros H Hin.
  destruct (fetch_log_quiet w) as (Fa & _). unfold fetch_log in Fa.
  destruct (get_door_status w) as [v t0]. cbn [fst snd] in *.
  destruct (on_status w self v) as [[s1 t1] r1] eqn:Eo. pairs.
  rewrite appended_app, Fa in Hin. cbn [app] in Hin.
  assert (Ha : forall s t r0, announce w self v = (s, t, r0) ->
                 In rec (appended t) ->
                 fst rec = now w /\ m_lookup v = Ok (snd rec)).
  { intros s t r0 Hs Hi. apply announce_spec in Hs.
    destruct Hs as (_ & _ & [(_ & _ & Happ & _)|(label & _ & Hl & _ & Happ & _)]);
      rewrite Happ in Hi; [contradiction|].
    destruct Hi as [<-|[]]. split; [reflexivity | exact Hl]. }
  unfold on_status in Eo.
  destruct (PyList.len (history self) >? 0); [|exact (Ha _ _ _ Eo Hin)].
  destruct (m_lookup v) as [label|e]; [|pairs; contradiction].
  destruct (PyList.last_item (history self)) as [last|e]; [|pairs; contradiction].
  destruct (String.eqb label (snd last)); [pairs; contradiction|].
  exact (Ha _ _ _ Eo Hin).
Qed.

Lemma trimmed_incl cap h (rec : Z * string) :
  In rec (trimmed cap h) -> In rec h.
Proof.
  unfold trimmed. destruct (PyList.len h >? cap); [|trivial].
  destruct h as [|x t]; [trivial|]. cbn. auto.
Qed.

Lemma history_step_incl cap h tr h' rec :
  history_step cap h tr h' -> In rec h' -> In rec h \/ In rec (appended tr).
Proof.
  intros [ | r h1 _ _ Hh Ha _] Hin; [left; exact Hin|].
  subst h1. apply trimmed_incl in Hin. rewrite Ha.
  apply in_app_or in Hin. exact Hin.
Qed.

(** X13.  Every record of the history was put there by a poll of the
    session (or was there before it): it carries the clock reading of that
    poll and the label of the value that poll observed.  Links add no
    record, and no record is made up or altered. *)
Theorem history_records_were_observed cs : forall self rec,
  In rec (history (fst (run cs self))) ->
  In rec (history self) \/
  exists w, In (Poll w) cs /\ fst rec = now w /\
            m_lookup (observed w) = Ok (snd rec).
Proof.
  induction cs as [|c cs IH]; intros self rec Hin; [left; exact Hin|].
  cbn [run] in Hin. destruct (exec c self) as [[s1 t1] r1] eqn:E.
  specialize (IH s1 rec). destruct (run cs s1) as [s2 t2]. cbn [fst] in *.
  destruct (IH Hin) as [H1|(w & Hw & Hrec)].
  - pose proof (@exec_step _ _ _ _ _ E) as (_ & _ & Hs).
    destruct (@history_step_incl _ _ _ _ rec Hs H1) as [H0|Happ]; [left; exact H0|].
    destruct c as [w|w g ch]; cbn [exec] in E.
    + right. exists w. split; [left; reflexivity|].
      exact (@send_announcement_appended _ _ _ _ _ rec E Happ).
    + apply link_channel_step in E. destruct E as (_ & _ & _ & Ha & _).
      rewrite Ha in Happ. contradiction.
  - right. exists w. split; [right; exact Hw | exact Hrec].
Qed.

Lemma history_records_were_observed_witness :
  In (4, "Closed") (history demo) \/
  exists w, In (Poll w) demo_session /\ fst (4, "Closed") = now w /\
            m_lookup (observed w) = Ok (snd (4, "Closed")).
Proof.
  apply (@history_records_were_observed demo_session demo (4, "Closed")).
  vm_compute. right. left. reflexivity.
Defined.

Lemma strongly_sorted_drop (A : Type) (R : A -> A -> Prop) x : forall l1 l2,
  StronglySorted R (l1 ++ x :: l2) -> StronglySorted R (l1 ++ l2).
Proof.
  induction l1 as [|a l1 IH]; intros l2 H; cbn in *.
  - inversion H; assumption.
  - inversion H as [|a' l' Hs Hf]; subst. constructor; [apply IH; exact Hs|].
    apply Forall_app in Hf. destruct Hf as [Hf1 Hf2].
    apply Forall_app. split; [exact Hf1|]. inversion Hf2; assumption.
Qed.

Lemma strongly_sorted_tl (A : Type) (R : A -> A -> Prop) l :
  StronglySorted R l -> StronglySorted R (tl l).
Proof. intros H. destruct H; [constructor | assumption]. Qed.

(** X14.  When the clock never runs backwards from one poll to the next,
    and starts no earlier than the records already held, the history is in
    chronological order after any session: every record is stamped no
    later than each record after it. *)
Theorem history_is_chronological cs : forall self,
  StronglySorted Z.le (map fst (history self) ++ poll_times cs) ->
  StronglySorted Z.le (map fst (history (fst (run cs self)))).
Proof.
  induction cs as [|c cs IH]; intros self Hs.
  - cbn in *. rewrite app_nil_r in Hs. exact Hs.
  - cbn [run]. destruct (exec c self) as [[s1 t1] r1] eqn:E.
    specialize (IH s1). destruct (run cs s1) as [s2 t2]. cbn [fst] in *.
    apply IH. clear IH.
    pose proof (@exec_step _ _ _ _ _ E) as (_ & _ & Hstep).
    destruct c as [w|w g ch]; cbn [exec poll_times] in *.
    + destruct Hstep as [ | r h1 _ _ Hh Ha _].
      * exact (@strongly_sorted_drop _ _ _ _ _ Hs).
      * assert (Hr : fst r = now w).
        { apply (@send_announcement_appended _ _ _ _ _ r E). rewrite Ha. left. reflexivity. }
        assert (Hall : StronglySorted Z.le
                         (map fst (history self ++ [r]) ++ poll_times cs)).
        { rewrite map_app, <- app_assoc. cbn [map app]. rewrite Hr. exact Hs. }
        subst h1. unfold trimmed.
        destruct (PyList.len (history self ++ [r]) >? max_history_len self);
          [|exact Hall].
        destruct (history self ++ [r]) as [|x t] eqn:Eh;
          [destruct (history self); discriminate Eh|].
        cbn [tl]. exact (@strongly_sorted_tl _ _ _ Hall).
    + apply link_channel_step in E. destruct E as (_ & _ & Hh & _).
      rewrite Hh. exact Hs.
Qed.

Lemma history_is_chronological_witness :
  StronglySorted Z.le (map fst (history (fst (run demo_session demo)))).
Proof.
  apply (@history_is_chronological demo_session demo).
  cbn. repeat constructor; lia.
Defined.

(** ** Further properties: sessions *)

(** X15.  A failed announcement is made again: when a poll of a transition
    ends with an exception, the next poll that observes the same state and
    meets no failing edit edits the message of every linked guild, those
    already edited by the failed poll included, and appends the record. *)
Theorem failed_announcement_is_retried w1 w2 self self1 tr1 e label :
  send_announcement w1 self = (self1, tr1, Some e) ->
  NoDup (PyDict.keys (messages self)) ->
  transition (history self) label ->
  m_lookup (observed w2) = Ok label ->
  Forall (fun kv => edit_raises w2 (snd kv) = false) (messages self1) ->
  snd (send_announcement w2 self1) = None /\
  map fst (edits (snd (fst (send_announcement w2 self1)))) =
    PyDict.keys (messages self) /\
  appended (snd (fst (send_announcement w2 self1))) = [(now w2, label)].
Proof.
  intros H1 Hnd Ht Hl Hok.
  pose proof (@raising_poll_history _ _ _ _ _ H1) as (Hh & _).
  pose proof (@send_announcement_keys _ _ _ _ _ H1) as Hk.
  destruct (@poll_edits_all w2 self1 label)
    as (Hr & _ & He & Ha & _); trivial.
  - rewrite Hk. exact Hnd.
  - rewrite Hh. exact Ht.
  - repeat split; trivial. rewrite He, <- Hk.
    unfold PyDict.keys. rewrite map_map. reflexivity.
Qed.

Lemma failed_announcement_is_retried_witness :
  map fst (edits (snd (fst (send_announcement (sees 11 true)
     (fst (fst (send_announcement opens_102_gone three_guilds))))))) =
  PyDict.keys (messages three_guilds).
Proof.
  refine (proj1 (proj2 (@failed_announcement_is_retried opens_102_gone
            (sees 11 true) three_guilds
            (fst (fst (send_announcement opens_102_gone three_guilds)))
            (snd (fst (send_announcement opens_102_gone three_guilds)))
            (HTTPException 102) "Open" _ _ _ _ _))).
  - reflexivity.
  - cbn. repeat constructor; cbn; intuition discriminate.
  - left. reflexivity.
  - reflexivity.
  - repeat constructor.
Defined.

(** X16.  After any session of a fresh cog the dictionary holds at most
    one message per guild: linking a guild again replaces its entry, and
    no poll adds or duplicates one. *)
Theorem one_message_per_guild refresh n cap cs :
  NoDup (PyDict.keys (messages (fst (run cs (init refresh n cap))))).
Proof. apply run_keys_nodup. constructor. Qed.
